(** * Sổ doanh thu AI: the ledger editor of [App.tsx]

    A shallow embedding of the state logic of the React component [App]
    (file [src/App.tsx]): the ledger document, the amount input helpers,
    the transaction operations, the voice handlers split at their [await],
    the persistence effect, and the properties stated about them. *)

From Stdlib Require Import ZArith List String Ascii Bool Lia.
From Stdlib Require Import Decimal DecimalString DecimalN DecimalZ.
Import ListNotations.

Local Open Scope string_scope.
Local Open Scope list_scope.
Local Open Scope Z_scope.

(** ** JavaScript numbers

    [amount] is a JavaScript [number], an IEEE-754 binary64 value.  The
    program only produces integral values, the infinities and NaN on the
    paths embedded here, so a number is an integer (meant to be one that a
    double can hold, see [is_double]), an infinity or NaN.  Negative zero is
    identified with zero.  A fractional amount, which only an answer of the
    transcription service can carry, is outside this type. *)

Inductive number : Type :=
| Num (z : Z)
| PosInfinity
| NegInfinity
| NaN.

Definition number_eqb (a b : number) : bool :=
  match a, b with
  | Num x, Num y => x =? y
  | PosInfinity, PosInfinity => true
  | NegInfinity, NegInfinity => true
  | _, _ => false
  end.

(** [round_double n], for [0 < n]: the double nearest to the integer [n]
    (53 significant bits, ties to even), [None] when that is not finite. *)
Definition round_double (n : Z) : option Z :=
  let e := Z.log2 n - 52 in
  if e <=? 0 then Some n
  else
    let q := Z.shiftr n e in
    let r := n - Z.shiftl q e in
    let half := Z.shiftl 1 (e - 1) in
    let q' := if (half <? r) || ((r =? half) && Z.odd q) then q + 1 else q in
    let v := Z.shiftl q' e in
    if 2 ^ 1024 <=? v then None else Some v.

(** The Number value of a mathematical integer. *)
Definition toNumber (z : Z) : number :=
  if z =? 0 then Num 0
  else if 0 <? z then
    match round_double z with Some v => Num v | None => PosInfinity end
  else
    match round_double (- z) with Some v => Num (- v) | None => NegInfinity end.

(** The integers that are JavaScript numbers. *)
Definition is_double (z : Z) : Prop := toNumber z = Num z.

(** [isNaN(x)] *)
Definition isNaN (x : number) : bool :=
  match x with NaN => true | _ => false end.

(** Truthiness of a number: [0] and [NaN] are falsy. *)
Definition number_truthy (x : number) : bool :=
  match x with
  | Num z => negb (z =? 0)
  | NaN => false
  | _ => true
  end.

(** ** Strings

    A string is its sequence of bytes (UTF-8).  The regular expressions of
    the program only single out ASCII characters, so what they keep or
    drop is the same on bytes as on UTF-16 code units. *)

Fixpoint string_filter (p : ascii -> bool) (s : string) : string :=
  match s with
  | EmptyString => EmptyString
  | String c r => if p c then String c (string_filter p r) else string_filter p r
  end.

Definition is_digit (c : ascii) : bool :=
  match c with
  | "0" | "1" | "2" | "3" | "4" | "5" | "6" | "7" | "8" | "9" => true
  | _ => false
  end%char.

Definition is_dot (c : ascii) : bool := Ascii.eqb c "."%char.

(** Truthiness of a string: only the empty string is falsy. *)
Definition string_truthy (s : string) : bool :=
  match s with EmptyString => false | _ => true end.

(** ASCII white space skipped by [parseInt]. *)
Definition is_space (c : ascii) : bool :=
  match nat_of_ascii c with
  | 9%nat | 10%nat | 11%nat | 12%nat | 13%nat | 32%nat => true
  | _ => false
  end.

Fixpoint skip_spaces (s : string) : string :=
  match s with
  | String c r => if is_space c then skip_spaces r else s
  | EmptyString => EmptyString
  end.

(** The longest prefix of decimal digits, as a [Decimal.uint]. *)
Fixpoint digit_prefix (s : string) : uint :=
  match s with
  | EmptyString => Nil
  | String c r =>
      match c with
      | "0" => D0 (digit_prefix r)
      | "1" => D1 (digit_prefix r)
      | "2" => D2 (digit_prefix r)
      | "3" => D3 (digit_prefix r)
      | "4" => D4 (digit_prefix r)
      | "5" => D5 (digit_prefix r)
      | "6" => D6 (digit_prefix r)
      | "7" => D7 (digit_prefix r)
      | "8" => D8 (digit_prefix r)
      | "9" => D9 (digit_prefix r)
      | _ => Nil
      end%char
  end.

(** [parseInt(s, 10)]: leading white space, an optional sign, then the
    longest run of digits; no digit gives NaN.  The digits are read
    exactly and rounded once (an engine may also zero the digits after
    the twentieth, which changes no result used below). *)
Definition parseInt10 (s : string) : number :=
  let s1 := skip_spaces s in
  let '(neg, s2) :=
    match s1 with
    | String "-"%char r => (true, r)
    | String "+"%char r => (false, r)
    | _ => (false, s1)
    end in
  match digit_prefix s2 with
  | Nil => NaN
  | u => toNumber (if neg then - Z.of_uint u else Z.of_uint u)
  end.

(** Digits grouped in threes from the right, separated by ".", read on
    the reversed digit list; [k] digits stand since the last separator. *)
Fixpoint sep3 (k : nat) (l : list ascii) : list ascii :=
  match l with
  | [] => []
  | c :: r =>
      match k with
      | 3%nat => "."%char :: c :: sep3 1 r
      | _ => c :: sep3 (S k) r
      end
  end.

Definition group_thousands (s : string) : string :=
  string_of_list_ascii (List.rev (sep3 0 (List.rev (list_ascii_of_string s)))).

Definition decimal_digits (n : Z) : string :=
  NilEmpty.string_of_uint (N.to_uint (Z.to_N n)).

(** [round_trips v c]: the integer [c], read as a number, is [v]. *)
Definition round_trips (v c : Z) : bool := number_eqb (toNumber c) (Num v).

(** Of the multiples of [p] just below and just above [v], the one that
    reads back as [v]; if both do, the nearer one, and on a tie the one
    whose last digit is even. *)
Definition shortest_candidate (v p : Z) : option Z :=
  let lo := v / p * p in
  let hi := lo + p in
  match round_trips v lo, round_trips v hi with
  | true, true =>
      Some (if 2 * v <? lo + hi then lo
            else if lo + hi <? 2 * v then hi
            else if Z.even (v / p) then lo else hi)
  | true, false => Some lo
  | false, true => Some hi
  | false, false => None
  end.

(** The shortest decimal that reads back as the double [v], padded with
    zeros: the search goes from one significant digit (unit [10^k]) down
    to all digits (unit 1), where [v] itself is found. *)
Fixpoint shortest_from (v : Z) (k : nat) : Z :=
  match shortest_candidate v (10 ^ Z.of_nat k) with
  | Some c => c
  | None => match k with O => v | S k' => shortest_from v k' end
  end.

(** The integer digits a number is printed with: those of the shortest
    decimal that reads back as it.  Below 2^53 these are the digits of the
    integer itself; above, at most 17 digits followed by zeros. *)
Definition shortest_digits (v : Z) : string :=
  decimal_digits
    (shortest_from v (Nat.pred (String.length (decimal_digits v)))).

(** [x.toLocaleString('vi-VN')] on the numbers of this program: the
    integer digits grouped with "." (the locale has no fraction here). *)
Definition toLocaleString_viVN (x : number) : string :=
  match x with
  | Num z =>
      if z <? 0 then String "-" (group_thousands (shortest_digits (- z)))
      else group_thousands (shortest_digits z)
  | PosInfinity => "∞"
  | NegInfinity => "-∞"
  | NaN => "NaN"
  end.

(** [x.toString()] on an integral number below 10^21 (a clock reading). *)
Definition toString (z : Z) : string :=
  NilEmpty.string_of_int (Z.to_int z).

(** ** The amount input helpers (App.tsx, lines 183-192) *)

Definition formatAmountInput (amount : number) : string :=
  if number_eqb amount (Num 0) then EmptyString
  else toLocaleString_viVN amount.

Definition parseAmountInput (value : string) : number :=
  let cleanValue :=
    string_filter is_digit (string_filter (fun c => negb (is_dot c)) value) in
  let num := parseInt10 cleanValue in
  if isNaN num then Num 0 else num.

Fixpoint repeat_string (n : nat) (s : string) : string :=
  match n with
  | O => EmptyString
  | S k => String.append s (repeat_string k s)
  end.

(** ** The ledger document (types of [./types], as App.tsx uses them) *)

Inductive AppView : Type := EDIT | PREVIEW.

Record TaxPayerInfo : Type := mkTaxPayerInfo {
  name : string;
  address : string;
  taxId : string;
  location : string;
  period : string
}.

Record Transaction : Type := mkTransaction {
  id : string;
  date : string;
  description : string;
  amount : number
}.

Record S1aFormState : Type := mkS1aFormState {
  info : TaxPayerInfo;
  transactions : list Transaction
}.

Definition SAMPLE_DATA : S1aFormState :=
  {| info :=
       {| name := "Nguyễn Văn A";
          address := "123 Đường Láng, Hà Nội";
          taxId := "8000123456";
          location := "Cửa hàng Tạp hóa Số 1";
          period := "Tháng 10/2023" |};
     transactions :=
       [ {| id := "1"; date := "01/10/2023";
            description := "Bán hàng tạp hóa lẻ"; amount := Num 2500000 |};
         {| id := "2"; date := "02/10/2023";
            description := "Cung cấp dịch vụ giao hàng"; amount := Num 500000 |} ] |}.

(** [keyof TaxPayerInfo] *)
Inductive InfoField : Type :=
  F_name | F_address | F_taxId | F_location | F_period.

Definition field_key (f : InfoField) : string :=
  match f with
  | F_name => "name"
  | F_address => "address"
  | F_taxId => "taxId"
  | F_location => "location"
  | F_period => "period"
  end.

(** [{ ...i, [field]: value }] *)
Definition set_info_field (i : TaxPayerInfo) (f : InfoField) (value : string)
  : TaxPayerInfo :=
  match f with
  | F_name => mkTaxPayerInfo value (address i) (taxId i) (location i) (period i)
  | F_address => mkTaxPayerInfo (name i) value (taxId i) (location i) (period i)
  | F_taxId => mkTaxPayerInfo (name i) (address i) value (location i) (period i)
  | F_location => mkTaxPayerInfo (name i) (address i) (taxId i) value (period i)
  | F_period => mkTaxPayerInfo (name i) (address i) (taxId i) (location i) value
  end.

(** A [keyof Transaction] with the value written to it.  The call sites
    pass a string for [date] and [description] and a number for [amount];
    the signature also admits [id]. *)
Inductive FieldValue : Type :=
| Set_id (value : string)
| Set_date (value : string)
| Set_description (value : string)
| Set_amount (value : number).

(** [{ ...t, [field]: value }] *)
Definition set_transaction_field (t : Transaction) (fv : FieldValue)
  : Transaction :=
  match fv with
  | Set_id v => mkTransaction v (date t) (description t) (amount t)
  | Set_date v => mkTransaction (id t) v (description t) (amount t)
  | Set_description v => mkTransaction (id t) (date t) v (amount t)
  | Set_amount v => mkTransaction (id t) (date t) (description t) v
  end.

(** ** The document updates passed to [setData]

    Each is the function [prev => ...] of the source. *)

(** handleInfoChange, lines 61-63 *)
Definition handleInfoChange (field : InfoField) (value : string)
  (prev : S1aFormState) : S1aFormState :=
  {| info := set_info_field (info prev) field value;
     transactions := transactions prev |}.

(** [prev => ({ ...prev, transactions: [...prev.transactions, newTrans] })] *)
Definition appendTransaction (newTrans : Transaction) (prev : S1aFormState)
  : S1aFormState :=
  {| info := info prev; transactions := transactions prev ++ [newTrans] |}.

(** addTransaction, lines 87-95; [now] is [Date.now()] and [today] is
    [new Date().toLocaleDateString('vi-VN')]. *)
Definition addTransaction (now : Z) (today : string) (prev : S1aFormState)
  : S1aFormState :=
  let newTrans :=
    {| id := toString now; date := today; description := EmptyString; amount := Num 0 |} in
  appendTransaction newTrans prev.

(** updateTransaction, lines 97-102 *)
Definition updateTransaction (i : string) (fv : FieldValue)
  (prev : S1aFormState) : S1aFormState :=
  {| info := info prev;
     transactions :=
       map (fun t => if String.eqb (id t) i then set_transaction_field t fv else t)
           (transactions prev) |}.

(** removeTransaction, lines 116-121 *)
Definition removeTransaction (i : string) (prev : S1aFormState)
  : S1aFormState :=
  {| info := info prev;
     transactions :=
       filter (fun t => negb (String.eqb (id t) i)) (transactions prev) |}.

(** The structured answer of [parseTransactionFromAudio]: every field may
    be missing. *)
Record ParsedTransaction : Type := mkParsed {
  parsed_date : option string;
  parsed_description : option string;
  parsed_amount : option number
}.

(** [x || d] on an optional string and on an optional number. *)
Definition or_string (x : option string) (d : string) : string :=
  match x with
  | Some s => if string_truthy s then s else d
  | None => d
  end.

Definition or_number (x : option number) (d : number) : number :=
  match x with
  | Some n => if number_truthy n then n else d
  | None => d
  end.

(** The transaction built by handleSmartVoiceAdd, lines 129-134. *)
Definition smartTransaction (now : Z) (today : string)
  (result : ParsedTransaction) : Transaction :=
  {| id := toString now;
     date := or_string (parsed_date result) today;
     description := or_string (parsed_description result) "Giao dịch mới";
     amount := or_number (parsed_amount result) (Num 0) |}.

(** The amount input's [onChange], line 259. *)
Definition onAmountChange (i : string) (value : string)
  (prev : S1aFormState) : S1aFormState :=
  updateTransaction i (Set_amount (parseAmountInput value)) prev.

(** ** The component state (the [useState] cells of [App], lines 27-34)

    React compares the dependencies of an effect by identity, so the state
    also records which object [data] is: the module constant [SAMPLE_DATA]
    or an object allocated later ([nextRef] counts the allocations). *)

Inductive ObjRef : Type :=
| SampleRef
| FreshRef (n : nat).

Definition ObjRef_eqb (a b : ObjRef) : bool :=
  match a, b with
  | SampleRef, SampleRef => true
  | FreshRef n, FreshRef m => Nat.eqb n m
  | _, _ => false
  end.

Record AppState : Type := mkAppState {
  view : AppView;
  data : S1aFormState;
  dataRef : ObjRef;
  nextRef : nat;
  isLoaded : bool;
  isProcessingAI : bool;
  processingField : option string;
  aiFeedback : option string;
  showResetConfirm : bool;
  apiKeyError : bool
}.

Definition initialState : AppState :=
  {| view := EDIT; data := SAMPLE_DATA; dataRef := SampleRef; nextRef := 0;
     isLoaded := false; isProcessingAI := false; processingField := None;
     aiFeedback := None; showResetConfirm := false; apiKeyError := false |}.

(** [setData(prev => f(prev))] and [setData(obj)] with a new object. *)
Definition setData (f : S1aFormState -> S1aFormState) (s : AppState) : AppState :=
  mkAppState (view s) (f (data s)) (FreshRef (nextRef s)) (S (nextRef s))
    (isLoaded s) (isProcessingAI s) (processingField s) (aiFeedback s)
    (showResetConfirm s) (apiKeyError s).

(** [setData(SAMPLE_DATA)] *)
Definition setData_SAMPLE (s : AppState) : AppState :=
  mkAppState (view s) SAMPLE_DATA SampleRef (nextRef s)
    (isLoaded s) (isProcessingAI s) (processingField s) (aiFeedback s)
    (showResetConfirm s) (apiKeyError s).

Definition setView (v : AppView) (s : AppState) : AppState :=
  mkAppState v (data s) (dataRef s) (nextRef s)
    (isLoaded s) (isProcessingAI s) (processingField s) (aiFeedback s)
    (showResetConfirm s) (apiKeyError s).

Definition setIsLoaded (b : bool) (s : AppState) : AppState :=
  mkAppState (view s) (data s) (dataRef s) (nextRef s)
    b (isProcessingAI s) (processingField s) (aiFeedback s)
    (showResetConfirm s) (apiKeyError s).

Definition setIsProcessingAI (b : bool) (s : AppState) : AppState :=
  mkAppState (view s) (data s) (dataRef s) (nextRef s)
    (isLoaded s) b (processingField s) (aiFeedback s)
    (showResetConfirm s) (apiKeyError s).

Definition setProcessingField (f : option string) (s : AppState) : AppState :=
  mkAppState (view s) (data s) (dataRef s) (nextRef s)
    (isLoaded s) (isProcessingAI s) f (aiFeedback s)
    (showResetConfirm s) (apiKeyError s).

Definition setAiFeedback (m : option string) (s : AppState) : AppState :=
  mkAppState (view s) (data s) (dataRef s) (nextRef s)
    (isLoaded s) (isProcessingAI s) (processingField s) m
    (showResetConfirm s) (apiKeyError s).

Definition setShowResetConfirm (b : bool) (s : AppState) : AppState :=
  mkAppState (view s) (data s) (dataRef s) (nextRef s)
    (isLoaded s) (isProcessingAI s) (processingField s) (aiFeedback s)
    b (apiKeyError s).

Definition setApiKeyError (b : bool) (s : AppState) : AppState :=
  mkAppState (view s) (data s) (dataRef s) (nextRef s)
    (isLoaded s) (isProcessingAI s) (processingField s) (aiFeedback s)
    (showResetConfirm s) b.

(** ** Effects issued and events received *)

(** The callbacks handed to [setTimeout]. *)
Inductive TimerCallback : Type :=
| ClearFeedback.

(** Calls that leave the component. *)
Inductive Effect : Type :=
| E_loadFromDB
| E_saveToDB (doc : S1aFormState)
| E_clearDB
| E_setTimeout (cb : TimerCallback) (ms : Z)
| E_transcribeStandardizedInfo (audioBase64 label mimeType : string)
| E_transcribeAudio (audioBase64 mimeType : string)
| E_parseTransactionFromAudio (audioBase64 mimeType : string).

(** A thrown value, as far as the handlers inspect it.  Reading
    [e.message] throws a TypeError when [e] is null or undefined; on any
    other value it gives the property, which need not be a string. *)
Inductive JsError : Type :=
| Nullish
| Thrown (message : option string).

Definition option_string_eqb (o : option string) (s : string) : bool :=
  match o with Some x => String.eqb x s | None => false end.


Definition MissingCredential : JsError := Thrown (Some "API_KEY_MISSING").

(** How an awaited promise settles. *)
Inductive Settled (A : Type) : Type :=
| Fulfilled (value : A)
| Rejected (e : JsError).
Arguments Fulfilled {A} value.
Arguments Rejected {A} e.

(** What reaches the component: user actions, and the resumption of a
    handler after its [await].  A handler whose awaited promise rejects
    outside a [try] is not resumed. *)
Inductive Event : Type :=
| Ev_loadResolved (savedData : option S1aFormState) (API_KEY : option string)
| Ev_infoChange (field : InfoField) (value : string)
| Ev_addTransaction (now : Z) (today : string)
| Ev_updateTransaction (i : string) (fv : FieldValue)
| Ev_removeTransaction (i : string)
| Ev_voiceForField (field : InfoField) (label audioBase64 mimeType : string)
| Ev_voiceForFieldSettled (field : InfoField) (r : Settled string)
| Ev_voiceForTransactionDesc (i : string) (audioBase64 mimeType : string)
| Ev_voiceForTransactionDescSettled (i : string) (r : Settled string)
| Ev_smartVoiceAdd (audioBase64 mimeType : string)
| Ev_smartVoiceAddSettled (now : Z) (today : string) (r : Settled ParsedTransaction)
| Ev_reset
| Ev_resetCleared
| Ev_setShowResetConfirm (b : bool)
| Ev_setView (v : AppView)
| Ev_timer (cb : TimerCallback).

(** ** The handlers *)

Definition isApiKeyMissing (API_KEY : option string) : bool :=
  match API_KEY with
  | None => true
  | Some k => negb (string_truthy k) || String.eqb k EmptyString || String.eqb k "undefined"
  end.

(** initData after [await loadFromDB()], lines 39-45 *)
Definition initData_resume (savedData : option S1aFormState)
  (API_KEY : option string) (s : AppState) : AppState :=
  let s1 := match savedData with
            | Some d => setData (fun _ => d) s
            | None => s
            end in
  let s2 := setIsLoaded true s1 in
  if isApiKeyMissing API_KEY then setApiKeyError true s2 else s2.

(** handleError, lines 65-73.  On null or undefined the test of
    [e.message] throws before any setter is called: the [catch] block of
    the caller is left at once (its [finally] still runs), nothing is
    set and no timer is armed. *)
Definition handleError (e : JsError) (s : AppState) : AppState * list Effect :=
  match e with
  | Nullish => (s, [])
  | Thrown message =>
      let s1 :=
        if option_string_eqb message "API_KEY_MISSING" then
          setAiFeedback (Some "Lỗi: Chưa có API Key") (setApiKeyError true s)
        else
          setAiFeedback (Some "Lỗi kết nối AI. Thử lại sau.") s in
      (s1, [E_setTimeout ClearFeedback 3000])
  end.

(** handleVoiceForField, lines 75-85: up to the [await], and from it on. *)
Definition handleVoiceForField (field : InfoField)
  (label audioBase64 mimeType : string) (s : AppState)
  : AppState * list Effect :=
  (setProcessingField (Some (field_key field)) s,
   [E_transcribeStandardizedInfo audioBase64 label mimeType]).

Definition handleVoiceForField_resume (field : InfoField) (r : Settled string)
  (s : AppState) : AppState * list Effect :=
  let '(s1, fx) :=
    match r with
    | Fulfilled text =>
        (if string_truthy text then setData (handleInfoChange field text) s else s, [])
    | Rejected e => handleError e s
    end in
  (setProcessingField None s1, fx).

(** handleVoiceForTransactionDesc, lines 104-114 *)
Definition handleVoiceForTransactionDesc (i : string)
  (audioBase64 mimeType : string) (s : AppState) : AppState * list Effect :=
  (setProcessingField (Some (String.append "trans-" i)) s,
   [E_transcribeAudio audioBase64 mimeType]).

Definition handleVoiceForTransactionDesc_resume (i : string)
  (r : Settled string) (s : AppState) : AppState * list Effect :=
  let '(s1, fx) :=
    match r with
    | Fulfilled text =>
        (if string_truthy text
         then setData (updateTransaction i (Set_description text)) s else s, [])
    | Rejected e => handleError e s
    end in
  (setProcessingField None s1, fx).

(** handleSmartVoiceAdd, lines 123-143 *)
Definition handleSmartVoiceAdd (audioBase64 mimeType : string) (s : AppState)
  : AppState * list Effect :=
  if negb (string_truthy audioBase64) then (s, [])
  else
    (setAiFeedback (Some "AI đang phân tích...") (setIsProcessingAI true s),
     [E_parseTransactionFromAudio audioBase64 mimeType]).

Definition handleSmartVoiceAdd_resume (now : Z) (today : string)
  (r : Settled ParsedTransaction) (s : AppState) : AppState * list Effect :=
  let '(s1, fx) :=
    match r with
    | Fulfilled result =>
        let newTrans := smartTransaction now today result in
        (setAiFeedback (Some "Đã thêm thành công!")
           (setData (appendTransaction newTrans) s),
         [E_setTimeout ClearFeedback 3000])
    | Rejected e => handleError e s
    end in
  (setIsProcessingAI false s1, fx).

(** handleReset, lines 55-59: up to [await clearDB()], and from it on. *)
Definition handleReset (s : AppState) : AppState * list Effect :=
  (s, [E_clearDB]).

Definition handleReset_resume (s : AppState) : AppState :=
  setShowResetConfirm false (setData_SAMPLE s).

Definition runTimer (cb : TimerCallback) (s : AppState) : AppState :=
  match cb with
  | ClearFeedback => setAiFeedback None s
  end.

Definition handle (ev : Event) (s : AppState) : AppState * list Effect :=
  match ev with
  | Ev_loadResolved savedData k => (initData_resume savedData k s, [])
  | Ev_infoChange f v => (setData (handleInfoChange f v) s, [])
  | Ev_addTransaction now today => (setData (addTransaction now today) s, [])
  | Ev_updateTransaction i fv => (setData (updateTransaction i fv) s, [])
  | Ev_removeTransaction i => (setData (removeTransaction i) s, [])
  | Ev_voiceForField f l a m => handleVoiceForField f l a m s
  | Ev_voiceForFieldSettled f r => handleVoiceForField_resume f r s
  | Ev_voiceForTransactionDesc i a m => handleVoiceForTransactionDesc i a m s
  | Ev_voiceForTransactionDescSettled i r => handleVoiceForTransactionDesc_resume i r s
  | Ev_smartVoiceAdd a m => handleSmartVoiceAdd a m s
  | Ev_smartVoiceAddSettled now today r => handleSmartVoiceAdd_resume now today r s
  | Ev_reset => handleReset s
  | Ev_resetCleared => (handleReset_resume s, [])
  | Ev_setShowResetConfirm b => (setShowResetConfirm b s, [])
  | Ev_setView v => (setView v s, [])
  | Ev_timer cb => (runTimer cb s, [])
  end.

(** The effect of lines 50-53, with dependencies [data] and [isLoaded]:
    it runs after a render in which one of them changed. *)
Definition persistEffect (before after : AppState) : list Effect :=
  if ObjRef_eqb (dataRef before) (dataRef after)
     && Bool.eqb (isLoaded before) (isLoaded after)
  then []
  else if negb (isLoaded after) then []
  else [E_saveToDB (data after)].

(** One event: the handler, then the effects of the render it causes. *)
Definition step (s : AppState) (ev : Event) : AppState * list Effect :=
  let '(s', fx) := handle ev s in
  (s', fx ++ persistEffect s s').

Fixpoint run (s : AppState) (evs : list Event) : AppState * list Effect :=
  match evs with
  | [] => (s, [])
  | ev :: rest =>
      let '(s1, fx1) := step s ev in
      let '(s2, fx2) := run s1 rest in
      (s2, fx1 ++ fx2)
  end.

(** What the mount issues: the first effect calls [initData], the second
    returns at once since [isLoaded] is false. *)
Definition mountEffects : list Effect := [E_loadFromDB].

Definition is_save (e : Effect) : bool :=
  match e with E_saveToDB _ => true | _ => false end.

Definition is_loadResolved (ev : Event) : bool :=
  match ev with Ev_loadResolved _ _ => true | _ => false end.


(** ** Auxiliary notions used in the statements *)

Definition all_digits (s : string) : Prop :=
  Forall (fun c => is_digit c = true) (list_ascii_of_string s).

Definition cleanValue (value : string) : string :=
  string_filter is_digit (string_filter (fun c => negb (is_dot c)) value).

(** [Subseq l1 l2]: [l1] is [l2] with some elements left out, the others
    in the same order. *)
Inductive Subseq {A : Type} : list A -> list A -> Prop :=
| Subseq_nil : Subseq [] []
| Subseq_skip x l1 l2 : Subseq l1 l2 -> Subseq l1 (x :: l2)
| Subseq_keep x l1 l2 : Subseq l1 l2 -> Subseq (x :: l1) (x :: l2).

(** ** Sequences of transaction operations *)

Inductive LedgerOp : Type :=
| Op_addTransaction (now : Z) (today : string)
| Op_smartVoiceAdd (now : Z) (today : string) (result : ParsedTransaction)
| Op_updateTransaction (i : string) (fv : FieldValue)
| Op_removeTransaction (i : string).

Definition applyOp (op : LedgerOp) (d : S1aFormState) : S1aFormState :=
  match op with
  | Op_addTransaction now today => addTransaction now today d
  | Op_smartVoiceAdd now today result =>
      appendTransaction (smartTransaction now today result) d
  | Op_updateTransaction i fv => updateTransaction i fv d
  | Op_removeTransaction i => removeTransaction i d
  end.

Definition applyOps (ops : list LedgerOp) (d : S1aFormState) : S1aFormState :=
  fold_left (fun acc op => applyOp op acc) ops d.

Definition ids (d : S1aFormState) : list string := map id (transactions d).

(** The ids handed out by the additions of a sequence, in order. *)
Definition created_id (op : LedgerOp) : list string :=
  match op with
  | Op_addTransaction now _ => [toString now]
  | Op_smartVoiceAdd now _ _ => [toString now]
  | _ => []
  end.

Definition created_ids (ops : list LedgerOp) : list string :=
  flat_map created_id ops.

(** The clock values read by the additions of a sequence, in order. *)
Definition clock_reading (op : LedgerOp) : list Z :=
  match op with
  | Op_addTransaction now _ => [now]
  | Op_smartVoiceAdd now _ _ => [now]
  | _ => []
  end.

Definition clock_readings (ops : list LedgerOp) : list Z :=
  flat_map clock_reading ops.

(** The updates of the user interface write [date], [description] and
    [amount], never [id]. *)
Definition keeps_id (op : LedgerOp) : bool :=
  match op with
  | Op_updateTransaction _ (Set_id _) => false
  | _ => true
  end.

(** ** Capture targets *)

Inductive CaptureTarget : Type :=
| T_infoField (field : InfoField)
| T_transactionDesc (i : string)
| T_newTransaction.

(** The capture request of a target: what its [VoiceInput] calls through
    [onAudioCapture] (lines 230, 252, 281). *)
Definition captureRequest (t : CaptureTarget) (label audioBase64 mimeType : string)
  : Event :=
  match t with
  | T_infoField f => Ev_voiceForField f label audioBase64 mimeType
  | T_transactionDesc i => Ev_voiceForTransactionDesc i audioBase64 mimeType
  | T_newTransaction => Ev_smartVoiceAdd audioBase64 mimeType
  end.



(** The [isProcessing] flag the component shows for a target. *)
Definition busy (s : AppState) (t : CaptureTarget) : bool :=
  match t with
  | T_infoField f => option_string_eqb (processingField s) (field_key f)
  | T_transactionDesc i =>
      option_string_eqb (processingField s) (String.append "trans-" i)
  | T_newTransaction => isProcessingAI s
  end.

(** Modelled from the spec: the guard of the [VoiceInput] component of
    [./components/VoiceInput], whose code is not part of the source at
    hand: a capture request for a target shown as busy is rejected, any
    other reaches the handler. *)
Definition VoiceInput_capture (s : AppState) (t : CaptureTarget)
  (label audioBase64 mimeType : string) : AppState * list Effect :=
  if busy s t then (s, [])
  else step s (captureRequest t label audioBase64 mimeType).

(** ** The Persistence Store *)

(** Modelled from the spec: the Persistence Store behind [loadFromDB],
    [saveToDB] and [clearDB] of [./services/db], whose code is not part of
    the source at hand.  It holds at most one ledger document. *)
Definition Store : Type := option S1aFormState.

(** Modelled from the spec: [load() -> LedgerDocument | absent] of the
    missing [./services/db]. *)
Definition loadFromDB (st : Store) : option S1aFormState := st.

(** Modelled from the spec: [save(doc) -> success|failure] of the missing
    [./services/db]; the last write wins, a failed save changes nothing. *)
Definition saveToDB (doc : S1aFormState) (ok : bool) (st : Store) : Store :=
  if ok then Some doc else st.

(** Modelled from the spec: [clear() -> success|failure] of the missing
    [./services/db]; it removes all stored state, a failed clear changes
    nothing. *)
Definition clearDB (ok : bool) (st : Store) : Store :=
  if ok then None else st.

(** The store after the persistence calls among [fx], each succeeding or
    failing as [ok] says. *)
Definition db_apply (ok : bool) (st : Store) (e : Effect) : Store :=
  match e with
  | E_saveToDB doc => saveToDB doc ok st
  | E_clearDB => clearDB ok st
  | _ => st
  end.

Definition db_exec (ok : bool) (fx : list Effect) (st : Store) : Store :=
  fold_left (db_apply ok) fx st.

(** handleReset run to its end with no other event in between:
    [clearDB()] is called and settles; when it resolves the handler goes
    on, when it rejects the handler stops there.  This is one run of the
    handler only: while [clearDB()] is awaited other events can be
    handled, and those runs are the ones of [step] on [Ev_reset], [run] on
    the events in between, and [step] on [Ev_resetCleared]. *)
Definition reset (clearOk saveOk : bool) (s : AppState) (st : Store)
  : AppState * Store * list Effect :=
  let '(s1, fx1) := step s Ev_reset in
  let st1 := db_exec clearOk fx1 st in
  if clearOk then
    let '(s2, fx2) := step s1 Ev_resetCleared in
    (s2, db_exec saveOk fx2 st1, fx1 ++ fx2)
  else (s1, st1, fx1).

(** The document in memory once a start of the program has loaded from
    the store. *)
Definition startup (st : Store) (API_KEY : option string) : AppState :=
  fst (step initialState (Ev_loadResolved (loadFromDB st) API_KEY)).

(** ** Reading an info field *)

(** [info[field]] *)
Definition get_info_field (i : TaxPayerInfo) (f : InfoField) : string :=
  match f with
  | F_name => name i
  | F_address => address i
  | F_taxId => taxId i
  | F_location => location i
  | F_period => period i
  end.

(** ** Notions used for the further properties *)

(** The value of a decimal digit character. *)
Definition digit_value (c : ascii) : Z :=
  match c with
  | "1" => 1 | "2" => 2 | "3" => 3 | "4" => 4 | "5" => 5
  | "6" => 6 | "7" => 7 | "8" => 8 | "9" => 9
  | _ => 0
  end%char.

(** Two writes go to the same field of a transaction. *)
Definition same_field (a b : FieldValue) : bool :=
  match a, b with
  | Set_id _, Set_id _ => true
  | Set_date _, Set_date _ => true
  | Set_description _, Set_description _ => true
  | Set_amount _, Set_amount _ => true
  | _, _ => false
  end.

Definition writes_id (fv : FieldValue) : bool :=
  match fv with Set_id _ => true | _ => false end.

(** An amount that is a non-negative integer or positive infinity. *)
Definition amount_ok (x : number) : bool :=
  match x with
  | Num z => 0 <=? z
  | PosInfinity => true
  | _ => false
  end.

(** What the edit form does to the document (lines 226, 246-268): the
    info inputs, the add button, the remove button, the date and
    description inputs and the amount input, which goes through
    [parseAmountInput]. *)
Inductive FormEdit : Type :=
| Form_info (field : InfoField) (value : string)
| Form_add (now : Z) (today : string)
| Form_remove (i : string)
| Form_date (i : string) (value : string)
| Form_description (i : string) (value : string)
| Form_amount (i : string) (value : string).

Definition formEvent (e : FormEdit) : Event :=
  match e with
  | Form_info f v => Ev_infoChange f v
  | Form_add now today => Ev_addTransaction now today
  | Form_remove i => Ev_removeTransaction i
  | Form_date i v => Ev_updateTransaction i (Set_date v)
  | Form_description i v => Ev_updateTransaction i (Set_description v)
  | Form_amount i v => Ev_updateTransaction i (Set_amount (parseAmountInput v))
  end.

(** The events that call [setData] with an update of the document. *)
Definition is_mutation (ev : Event) : bool :=
  match ev with
  | Ev_infoChange _ _ | Ev_addTransaction _ _
  | Ev_updateTransaction _ _ | Ev_removeTransaction _ => true
  | _ => false
  end.

(** The events whose handler calls no setter of [data] or [isLoaded]:
    the start of a capture, a failed call, the dialog, the view and the
    timers. *)
Definition is_passive (ev : Event) : bool :=
  match ev with
  | Ev_voiceForField _ _ _ _ | Ev_voiceForTransactionDesc _ _ _
  | Ev_smartVoiceAdd _ _ | Ev_reset
  | Ev_setShowResetConfirm _ | Ev_setView _ | Ev_timer _ => true
  | Ev_voiceForFieldSettled _ (Rejected _)
  | Ev_voiceForTransactionDescSettled _ (Rejected _)
  | Ev_smartVoiceAddSettled _ _ (Rejected _) => true
  | _ => false
  end.

(** Every amount of the document is a non-negative integer or positive
    infinity. *)
Definition amounts_ok (d : S1aFormState) : bool :=
  forallb (fun t => amount_ok (amount t)) (transactions d).

(** The object in [data] is the sample constant or one allocated
    earlier. *)
Definition ref_allocated (s : AppState) : Prop :=
  match dataRef s with
  | SampleRef => True
  | FreshRef n => (n < nextRef s)%nat
  end.

(** The targets marked through [processingField]: the info fields and the
    transaction descriptions. *)
Definition uses_processingField (t : CaptureTarget) : bool :=
  match t with T_newTransaction => false | _ => true end.

(** The key under which a target is marked in [processingField]. *)
Definition target_key (t : CaptureTarget) : string :=
  match t with
  | T_infoField f => field_key f
  | T_transactionDesc i => String.append "trans-" i
  | T_newTransaction => EmptyString
  end.

(** * Properties *)

(** ** Digit strings *)

(** Case analysis on the eight bits of a character. *)
Ltac destruct_ascii c := destruct c as [[|] [|] [|] [|] [|] [|] [|] [|]].

(** Case analysis on a thrown value: null or undefined, the message
    [API_KEY_MISSING], anything else. *)
Ltac destruct_error e :=
  let msg := fresh "msg" in
  destruct e as [|msg]; [|destruct (option_string_eqb msg _)].

Lemma string_filter_list p s :
  list_ascii_of_string (string_filter p s) = filter p (list_ascii_of_string s).
Proof.
  induction s as [|c r IH]; simpl; [reflexivity|].
  destruct (p c); simpl; now rewrite IH.
Qed.

Lemma string_filter_all_digits s : all_digits (string_filter is_digit s).
Proof.
  unfold all_digits. rewrite string_filter_list.
  apply Forall_forall. intros c Hc. now apply filter_In in Hc.
Qed.

Lemma string_filter_id p s :
  Forall (fun c => p c = true) (list_ascii_of_string s) -> string_filter p s = s.
Proof.
  induction s as [|c r IH]; simpl; intros H; [reflexivity|].
  inversion H as [|? ? Hc Hr]; subst. rewrite Hc. f_equal. now apply IH.
Qed.

Lemma is_digit_not_space c : is_digit c = true -> is_space c = false.
Proof.
  destruct_ascii c; simpl; intros H;
    try discriminate H; reflexivity.
Qed.

Lemma is_digit_not_dot c : is_digit c = true -> is_dot c = false.
Proof.
  destruct_ascii c; simpl; intros H;
    try discriminate H; reflexivity.
Qed.

Lemma string_of_uint_all_digits u : all_digits (NilEmpty.string_of_uint u).
Proof.
  unfold all_digits. induction u; simpl; constructor; auto.
Qed.

Lemma digit_prefix_string_of_uint u :
  digit_prefix (NilEmpty.string_of_uint u) = u.
Proof. induction u; simpl; now rewrite ?IHu. Qed.

Lemma digit_prefix_nb_digits s :
  (nb_digits (digit_prefix s) <= String.length s)%nat.
Proof.
  induction s as [|c r IH]; simpl; [lia|].
  destruct_ascii c; simpl; lia.
Qed.

(** On a digit string [parseInt] skips nothing and reads no sign. *)
Lemma parseInt10_digits s :
  all_digits s ->
  parseInt10 s =
  match digit_prefix s with
  | Nil => NaN
  | u => toNumber (Z.of_uint u)
  end.
Proof.
  unfold all_digits, parseInt10. destruct s as [|c r]; [reflexivity|].
  simpl list_ascii_of_string. intros H. inversion H as [|? ? Hc _]; subst.
  simpl skip_spaces. rewrite (is_digit_not_space _ Hc).
  destruct_ascii c; simpl in Hc;
    try discriminate Hc; reflexivity.
Qed.

(** ** Rounding to a double *)

Lemma of_uint_acc_bound d acc :
  Z.pos (Pos.of_uint_acc d acc) + 1 <=
  (Z.pos acc + 1) * 10 ^ Z.of_nat (nb_digits d).
Proof.
  revert acc. induction d; intros acc; cbn [Pos.of_uint_acc nb_digits];
    try (rewrite Nat2Z.inj_succ, Z.pow_succ_r by lia;
         etransitivity; [apply IHd|];
         assert (0 < 10 ^ Z.of_nat (nb_digits d)) by (apply Z.pow_pos_nonneg; lia);
         nia).
  simpl. lia.
Qed.

Lemma of_uint_bound d : 0 <= Z.of_uint d < 10 ^ Z.of_nat (nb_digits d).
Proof.
  unfold Z.of_uint. split; [apply N2Z.is_nonneg|].
  induction d; cbn [Pos.of_uint nb_digits];
    try (rewrite Nat2Z.inj_succ, Z.pow_succ_r by lia).
  - simpl. lia.
  - assert (0 < 10 ^ Z.of_nat (nb_digits d)) by (apply Z.pow_pos_nonneg; lia). lia.
  - pose proof (of_uint_acc_bound d 1). cbn [Z.of_N]. lia.
  - pose proof (of_uint_acc_bound d 2). cbn [Z.of_N]. lia.
  - pose proof (of_uint_acc_bound d 3). cbn [Z.of_N]. lia.
  - pose proof (of_uint_acc_bound d 4). cbn [Z.of_N]. lia.
  - pose proof (of_uint_acc_bound d 5). cbn [Z.of_N]. lia.
  - pose proof (of_uint_acc_bound d 6). cbn [Z.of_N]. lia.
  - pose proof (of_uint_acc_bound d 7). cbn [Z.of_N]. lia.
  - pose proof (of_uint_acc_bound d 8). cbn [Z.of_N]. lia.
  - pose proof (of_uint_acc_bound d 9). cbn [Z.of_N]. lia.
Qed.

Lemma round_double_small n : 0 < n < 2 ^ 53 -> round_double n = Some n.
Proof.
  intros [Hpos Hlt]. unfold round_double.
  assert (Z.log2 n < 53) by (apply Z.log2_lt_pow2; lia).
  destruct (Z.leb_spec (Z.log2 n - 52) 0); [reflexivity|lia].
Qed.

Lemma round_double_nonneg n v : 0 < n -> round_double n = Some v -> 0 <= v.
Proof.
  intros Hpos. unfold round_double.
  destruct (Z.leb_spec (Z.log2 n - 52) 0) as [_|He].
  - intros [= <-]. lia.
  - set (e := Z.log2 n - 52) in *.
    set (q := Z.shiftr n e).
    assert (Hq : 0 <= q) by (apply Z.shiftr_nonneg; lia).
    match goal with |- context [Z.shiftl ?x e] =>
      match x with q => fail 1 | _ => set (q' := x) end end.
    assert (Hq' : 0 <= q') by (subst q'; destruct (_ || _); lia).
    destruct (2 ^ 1024 <=? Z.shiftl q' e); [discriminate|].
    intros [= <-]. now apply Z.shiftl_nonneg.
Qed.

Lemma round_double_finite n :
  0 < n < 10 ^ 308 -> exists v, round_double n = Some v.
Proof.
  intros [Hpos Hlt]. unfold round_double.
  destruct (Z.leb_spec (Z.log2 n - 52) 0) as [_|He]; [now eexists|].
  assert (Hlog : Z.log2 n < 1024).
  { apply Z.log2_lt_pow2; [lia|]. eapply Z.lt_trans; [exact Hlt|]. reflexivity. }
  set (e := Z.log2 n - 52) in *.
  set (q := Z.shiftr n e).
  assert (Hqdiv : q = n / 2 ^ e) by (apply Z.shiftr_div_pow2; lia).
  assert (H2e : 0 < 2 ^ e) by (apply Z.pow_pos_nonneg; lia).
  assert (Hq53 : q < 2 ^ 53).
  { rewrite Hqdiv. apply Z.div_lt_upper_bound; [lia|].
    rewrite <- Z.pow_add_r by lia.
    replace (e + 53) with (Z.succ (Z.log2 n)) by (subst e; lia).
    apply Z.log2_spec. lia. }
  match goal with |- context [Z.shiftl ?x e] =>
    match x with q => fail 1 | _ => set (q' := x) end end.
  assert (Hq' : q' <= q + 1) by (subst q'; destruct (_ || _); lia).
  assert (Hq0 : 0 <= q) by (rewrite Hqdiv; apply Z.div_pos; lia).
  assert (Hq'0 : 0 <= q') by (subst q'; destruct (_ || _); lia).
  assert (Hv : Z.shiftl q' e < 2 ^ 1024).
  { rewrite Z.shiftl_mul_pow2 by lia.
    destruct (Z.eq_dec e 971) as [E|NE].
    - assert (Hqb : q <= (10 ^ 308) / 2 ^ 971).
      { rewrite Hqdiv, E. apply Z.div_le_mono; [reflexivity|lia]. }
      rewrite E.
      apply Z.le_lt_trans with (((10 ^ 308) / 2 ^ 971 + 1) * 2 ^ 971).
      + apply Z.mul_le_mono_nonneg_r; [apply Z.pow_nonneg; lia|lia].
      + reflexivity.
    - apply Z.le_lt_trans with (2 ^ 53 * 2 ^ 970).
      + apply Z.mul_le_mono_nonneg; try lia.
        apply Z.pow_le_mono_r; lia.
      + reflexivity. }
  destruct (Z.leb_spec (2 ^ 1024) (Z.shiftl q' e)); [lia|now eexists].
Qed.

(** The Number value of a non-negative integer is a non-negative integer
    or positive infinity. *)
Lemma toNumber_nonneg z :
  0 <= z -> toNumber z = PosInfinity \/ exists v, 0 <= v /\ toNumber z = Num v.
Proof.
  intros Hz. unfold toNumber.
  destruct (Z.eqb_spec z 0); [right; exists 0; split; [lia|reflexivity]|].
  destruct (Z.ltb_spec 0 z); [|lia].
  destruct (round_double z) as [v|] eqn:E; [|now left].
  right. exists v. split; [|reflexivity]. now apply round_double_nonneg with z.
Qed.

Lemma toNumber_finite z :
  0 <= z < 10 ^ 308 -> exists v, 0 <= v /\ toNumber z = Num v.
Proof.
  intros [Hz Hlt]. unfold toNumber.
  destruct (Z.eqb_spec z 0); [exists 0; split; [lia|reflexivity]|].
  destruct (Z.ltb_spec 0 z); [|lia].
  destruct (round_double_finite z) as [v Hv]; [lia|].
  rewrite Hv. exists v. split; [|reflexivity]. now apply round_double_nonneg with z.
Qed.

(** Below 2^53 every integer is a double. *)
Lemma safe_integer_is_double z : 0 <= z < 2 ^ 53 -> is_double z.
Proof.
  intros [Hz Hlt]. unfold is_double, toNumber.
  destruct (Z.eqb_spec z 0); [now subst|].
  destruct (Z.ltb_spec 0 z); [|lia].
  now rewrite round_double_small by lia.
Qed.

(** ** The amount input helpers *)

Lemma parseAmountInput_digits value :
  parseAmountInput value =
  match digit_prefix (cleanValue value) with
  | Nil => Num 0
  | u => toNumber (Z.of_uint u)
  end.
Proof.
  unfold parseAmountInput. fold (cleanValue value).
  rewrite parseInt10_digits by apply string_filter_all_digits.
  destruct (digit_prefix (cleanValue value)) as [|u|u|u|u|u|u|u|u|u|u] eqn:E;
    try reflexivity;
    match goal with |- context [toNumber ?z] =>
      destruct (toNumber_nonneg z) as [H|[v [_ H]]];
        [apply of_uint_bound | rewrite H; reflexivity | rewrite H; reflexivity]
    end.
Qed.

(** The parsed amount is a non-negative integer or positive infinity;
    it is never NaN and never negative. *)
Lemma parseAmountInput_range value :
  parseAmountInput value = PosInfinity \/
  exists n, 0 <= n /\ parseAmountInput value = Num n.
Proof.
  rewrite parseAmountInput_digits.
  destruct (digit_prefix (cleanValue value)) eqn:E;
    try (apply toNumber_nonneg; apply of_uint_bound).
  right. exists 0. split; [lia|reflexivity].
Qed.

(** With at most 308 digits in the input the parsed amount is a
    non-negative integer. *)
Lemma parseAmountInput_integer value :
  (String.length (cleanValue value) <= 308)%nat ->
  exists n, 0 <= n /\ parseAmountInput value = Num n.
Proof.
  intros Hlen. rewrite parseAmountInput_digits.
  assert (Hb : 0 <= Z.of_uint (digit_prefix (cleanValue value)) < 10 ^ 308).
  { pose proof (of_uint_bound (digit_prefix (cleanValue value))) as [H0 H1].
    split; [exact H0|]. eapply Z.lt_le_trans; [exact H1|].
    apply Z.pow_le_mono_r; [lia|].
    pose proof (digit_prefix_nb_digits (cleanValue value)). lia. }
  destruct (digit_prefix (cleanValue value)) eqn:E;
    try (apply toNumber_finite; exact Hb).
  exists 0. split; [lia|reflexivity].
Qed.

Example parseAmountInput_grouped : parseAmountInput "1.234.567" = Num 1234567.
Proof. reflexivity. Qed.

Example parseAmountInput_letters : parseAmountInput "abc" = Num 0.
Proof. reflexivity. Qed.

Lemma sep3_strip k l :
  Forall (fun c => is_digit c = true) l ->
  filter (fun c => negb (is_dot c)) (sep3 k l) = l.
Proof.
  intros H. revert k. induction H as [|c r Hc _ IH]; intros k; [reflexivity|].
  pose proof (is_digit_not_dot c Hc) as Hd.
  destruct k as [|[|[|[|k]]]]; cbn [sep3 filter];
    rewrite ?Hd; cbn [negb is_dot Ascii.eqb]; simpl; rewrite ?Hd; simpl;
    now rewrite IH.
Qed.

Lemma group_thousands_strip s :
  all_digits s ->
  string_filter (fun c => negb (is_dot c)) (group_thousands s) = s.
Proof.
  intros H. unfold group_thousands.
  rewrite <- (string_of_list_ascii_of_string
                (string_filter _ (string_of_list_ascii _))).
  rewrite string_filter_list, list_ascii_of_string_of_list_ascii.
  rewrite filter_rev, sep3_strip.
  - now rewrite rev_involutive, string_of_list_ascii_of_string.
  - apply Forall_forall. intros c Hc. apply in_rev in Hc.
    unfold all_digits in H. rewrite Forall_forall in H. now apply H.
Qed.

Lemma cleanValue_group_thousands s :
  all_digits s -> cleanValue (group_thousands s) = s.
Proof.
  intros H. unfold cleanValue. rewrite group_thousands_strip by exact H.
  now apply string_filter_id.
Qed.

Lemma N_to_uint_nonnil n : N.to_uint n <> Nil.
Proof.
  destruct n; simpl; [discriminate|apply DecimalPos.Unsigned.to_uint_nonnil].
Qed.

Lemma parseAmountInput_decimal_digits a :
  0 <= a -> parseAmountInput (group_thousands (decimal_digits a)) = toNumber a.
Proof.
  intros Ha. rewrite parseAmountInput_digits.
  unfold decimal_digits.
  rewrite cleanValue_group_thousands by apply string_of_uint_all_digits.
  rewrite digit_prefix_string_of_uint.
  assert (Hv : forall u, N.to_uint (Z.to_N a) = u -> Z.of_uint u = a).
  { intros u <-. unfold Z.of_uint. change (Pos.of_uint ?d) with (N.of_uint d).
    rewrite DecimalN.Unsigned.of_to. now apply Z2N.id. }
  destruct (N.to_uint (Z.to_N a)) eqn:E;
    [now apply N_to_uint_nonnil in E | ..];
    now rewrite (Hv _ eq_refl).
Qed.

(** *** The digits a number is displayed with *)

Lemma number_eqb_Num x v : number_eqb x (Num v) = true -> x = Num v.
Proof.
  destruct x as [z| | |]; cbn [number_eqb]; intros H; try discriminate H.
  apply Z.eqb_eq in H. now subst.
Qed.

Lemma shortest_candidate_spec v p c :
  0 <= v -> 0 < p -> shortest_candidate v p = Some c ->
  0 <= c /\ toNumber c = Num v.
Proof.
  intros Hv Hp. unfold shortest_candidate, round_trips.
  assert (Hlo : 0 <= v / p * p).
  { apply Z.mul_nonneg_nonneg; [apply Z.div_pos|]; lia. }
  destruct (number_eqb (toNumber (v / p * p)) (Num v)) eqn:Elo;
    destruct (number_eqb (toNumber (v / p * p + p)) (Num v)) eqn:Ehi;
    try discriminate;
    try apply number_eqb_Num in Elo; try apply number_eqb_Num in Ehi.
  - destruct (_ <? _); [|destruct (_ <? _); [|destruct (Z.even _)]];
      intros [= <-]; (split; [lia|assumption]).
  - intros [= <-]. now split.
  - intros [= <-]. split; [lia|assumption].
Qed.

(** What is printed reads back as the number. *)
Lemma shortest_from_reads_back v k :
  0 <= v -> is_double v ->
  0 <= shortest_from v k /\ toNumber (shortest_from v k) = Num v.
Proof.
  intros Hv Hd. induction k as [|k IH]; cbn [shortest_from].
  - destruct (shortest_candidate v (10 ^ Z.of_nat 0)) as [c|] eqn:E.
    + refine (shortest_candidate_spec v _ c Hv _ E). now vm_compute.
    + now split.
  - destruct (shortest_candidate v (10 ^ Z.of_nat (S k))) as [c|] eqn:E.
    + refine (shortest_candidate_spec v _ c Hv _ E).
      apply Z.pow_pos_nonneg; lia.
    + exact IH.
Qed.

Lemma round_double_large n w :
  2 ^ 53 <= n -> round_double n = Some w -> 2 ^ 53 <= w.
Proof.
  intros Hn. unfold round_double.
  assert (Hlog : 53 <= Z.log2 n) by (apply Z.log2_le_pow2; lia).
  destruct (Z.leb_spec (Z.log2 n - 52) 0) as [He|He]; [lia|].
  set (e := Z.log2 n - 52) in *.
  set (q := Z.shiftr n e).
  assert (Hqdiv : q = n / 2 ^ e) by (apply Z.shiftr_div_pow2; lia).
  assert (H2e : 0 < 2 ^ e) by (apply Z.pow_pos_nonneg; lia).
  assert (Hq52 : 2 ^ 52 <= q).
  { rewrite Hqdiv. apply Z.div_le_lower_bound; [lia|].
    rewrite Z.mul_comm, <- Z.pow_add_r by lia.
    replace (52 + e) with (Z.log2 n) by (subst e; lia).
    apply Z.log2_spec. lia. }
  match goal with |- context [Z.shiftl ?x e] =>
    match x with q => fail 1 | _ => set (q' := x) end end.
  assert (Hq' : q <= q') by (subst q'; destruct (_ || _); lia).
  destruct (2 ^ 1024 <=? Z.shiftl q' e); [discriminate|].
  intros [= <-]. rewrite Z.shiftl_mul_pow2 by lia.
  apply Z.le_trans with (2 ^ 52 * 2 ^ 1); [now vm_compute|].
  apply Z.mul_le_mono_nonneg; try lia.
  apply Z.pow_le_mono_r; lia.
Qed.

(** Below 2^53 only the integer itself reads back as it. *)
Lemma reads_back_safe v c :
  0 <= v < 2 ^ 53 -> 0 <= c -> toNumber c = Num v -> c = v.
Proof.
  intros Hv Hc E. destruct (Z.lt_ge_cases c (2 ^ 53)) as [Hlt|Hge].
  - rewrite (safe_integer_is_double c) in E by lia. now injection E.
  - exfalso. unfold toNumber in E.
    destruct (Z.eqb_spec c 0); [lia|]. destruct (Z.ltb_spec 0 c); [|lia].
    destruct (round_double c) as [w|] eqn:Ew; [|discriminate E].
    pose proof (round_double_large c w Hge Ew). injection E as E. lia.
Qed.

(** Below 2^53 a number is printed with the digits of the integer. *)
Lemma shortest_from_safe v k : 0 <= v < 2 ^ 53 -> shortest_from v k = v.
Proof.
  intros Hv.
  assert (Hc : forall p c, 0 < p -> shortest_candidate v p = Some c -> c = v).
  { intros p c Hp E.
    destruct (shortest_candidate_spec v p c (proj1 Hv) Hp E) as [H0 Hr].
    now apply reads_back_safe. }
  induction k as [|k IH]; cbn [shortest_from].
  - destruct (shortest_candidate v (10 ^ Z.of_nat 0)) as [c|] eqn:E;
      [|reflexivity]. refine (Hc _ c _ E). now vm_compute.
  - destruct (shortest_candidate v (10 ^ Z.of_nat (S k))) as [c|] eqn:E;
      [|exact IH]. refine (Hc _ c _ E). apply Z.pow_pos_nonneg; lia.
Qed.

Lemma shortest_digits_safe v : 0 <= v < 2 ^ 53 -> shortest_digits v = decimal_digits v.
Proof. intros Hv. unfold shortest_digits. now rewrite shortest_from_safe. Qed.

Lemma amount_roundtrip a :
  0 <= a -> is_double a -> parseAmountInput (formatAmountInput (Num a)) = Num a.
Proof.
  intros Ha Hd. unfold formatAmountInput, number_eqb.
  destruct (Z.eqb_spec a 0) as [->|Hne]; [reflexivity|].
  unfold toLocaleString_viVN, shortest_digits.
  destruct (Z.ltb_spec a 0); [lia|].
  destruct (shortest_from_reads_back a
              (Nat.pred (String.length (decimal_digits a))) Ha Hd) as [H0 Hr].
  rewrite parseAmountInput_decimal_digits by exact H0. exact Hr.
Qed.

Example toLocaleString_2_64 :
  toLocaleString_viVN (Num (2 ^ 64)) = "18.446.744.073.709.552.000"
  /\ toLocaleString_viVN (Num (2 ^ 70)) = "1.180.591.620.717.411.300.000"
  /\ toLocaleString_viVN (Num (2 ^ 53)) = "9.007.199.254.740.992"
  /\ parseAmountInput (formatAmountInput (Num (2 ^ 64))) = Num (2 ^ 64).
Proof. repeat split; vm_compute; reflexivity. Qed.

(** Every safe integer takes part in the round trip. *)
Corollary amount_roundtrip_safe (a : Z) :
  0 <= a < 2 ^ 53 ->
  parseAmountInput (formatAmountInput (Num a)) = Num a.
Proof.
  intros H. apply amount_roundtrip; [lia|].
  now apply safe_integer_is_double.
Qed.

(** C10.  For every non-negative integer [a] that is a JavaScript number,
    parsing what [formatAmountInput] displays gives [a] back:
    [parseAmountInput (formatAmountInput a) = a], where zero is displayed
    as the empty string and the empty string parses to zero. *)
Theorem parseAmountInput_formatAmountInput (a : Z) :
  0 <= a -> is_double a ->
  parseAmountInput (formatAmountInput (Num a)) = Num a
  /\ formatAmountInput (Num 0) = EmptyString
  /\ parseAmountInput EmptyString = Num 0.
Proof.
  intros Ha Hd. split; [now apply amount_roundtrip|split; reflexivity].
Qed.

Lemma parseAmountInput_formatAmountInput_witness :
  0 <= 1234567 /\ is_double 1234567 /\
  formatAmountInput (Num 1234567) = "1.234.567" /\
  parseAmountInput (formatAmountInput (Num 1234567)) = Num 1234567.
Proof.
  assert (H0 : 0 <= 1234567) by lia.
  assert (Hd : is_double 1234567) by reflexivity.
  split; [exact H0|]. split; [exact Hd|]. split; [reflexivity|].
  exact (proj1 (parseAmountInput_formatAmountInput 1234567 H0 Hd)).
Defined.

(** ** Amounts stored through the amount input *)

Lemma onAmountChange_stored i value d t :
  In t (transactions (onAmountChange i value d)) ->
  id t = i -> amount t = parseAmountInput value.
Proof.
  unfold onAmountChange, updateTransaction. cbn [transactions].
  intros Hin Hid. apply in_map_iff in Hin. destruct Hin as [t0 [Ht0 _]].
  destruct (String.eqb_spec (id t0) i) as [_|Hne].
  - now subst t.
  - subst t. contradiction.
Qed.

(** An input with at most 308 digits stores a non-negative integer. *)
Lemma onAmountChange_integer i value d t :
  (String.length (cleanValue value) <= 308)%nat ->
  In t (transactions (onAmountChange i value d)) -> id t = i ->
  exists n, 0 <= n /\ amount t = Num n.
Proof.
  intros Hlen Hin Hid. rewrite (onAmountChange_stored i value d t Hin Hid).
  now apply parseAmountInput_integer.
Qed.

(** C2.  The amount input path on the spec's two examples and on an input
    of 309 digits: "1.234.567" stores 1234567 and "abc" stores 0, but
    309 nines parse to positive infinity, which [isNaN] lets through, so
    the amount stored in the transaction is Infinity, not an integer. *)
Theorem onAmountChange_overflow :
  map amount (transactions (onAmountChange "1" "1.234.567" SAMPLE_DATA))
    = [Num 1234567; Num 500000]
  /\ map amount (transactions (onAmountChange "1" "abc" SAMPLE_DATA))
    = [Num 0; Num 500000]
  /\ parseAmountInput (repeat_string 309 "9") = PosInfinity
  /\ map amount
       (transactions (onAmountChange "1" (repeat_string 309 "9") SAMPLE_DATA))
    = [PosInfinity; Num 500000].
Proof. repeat split; vm_compute; reflexivity. Qed.

(** ** removeTransaction *)

Lemma Subseq_refl {A} (l : list A) : Subseq l l.
Proof. induction l; [apply Subseq_nil|now apply Subseq_keep]. Qed.

Lemma Subseq_trans {A} (l1 l2 l3 : list A) :
  Subseq l1 l2 -> Subseq l2 l3 -> Subseq l1 l3.
Proof.
  intros H12 H23. revert l1 H12.
  induction H23 as [|x l2 l3 _ IH|x l2 l3 _ IH]; intros l1 H12.
  - exact H12.
  - apply Subseq_skip. now apply IH.
  - inversion H12; subst; [apply Subseq_skip|apply Subseq_keep]; now apply IH.
Qed.

Lemma Subseq_app_r {A} (l1 l2 k : list A) :
  Subseq l1 l2 -> Subseq (l1 ++ k) (l2 ++ k).
Proof.
  induction 1; simpl;
    [apply Subseq_refl|now apply Subseq_skip|now apply Subseq_keep].
Qed.

Lemma Subseq_filter {A} (p : A -> bool) (l : list A) : Subseq (filter p l) l.
Proof.
  induction l as [|x l IH]; simpl; [apply Subseq_nil|].
  destruct (p x); [now apply Subseq_keep|now apply Subseq_skip].
Qed.

Lemma Subseq_map {A B} (f : A -> B) (l1 l2 : list A) :
  Subseq l1 l2 -> Subseq (map f l1) (map f l2).
Proof.
  induction 1; simpl;
    [apply Subseq_nil|now apply Subseq_skip|now apply Subseq_keep].
Qed.

Lemma Subseq_In {A} (l1 l2 : list A) x : Subseq l1 l2 -> In x l1 -> In x l2.
Proof.
  induction 1; simpl; intros Hin; auto.
  destruct Hin; auto.
Qed.

Lemma Subseq_NoDup {A} (l1 l2 : list A) : Subseq l1 l2 -> NoDup l2 -> NoDup l1.
Proof.
  induction 1 as [|x l1 l2 H IH|x l1 l2 H IH]; intros Hnd.
  - constructor.
  - inversion Hnd; subst. auto.
  - inversion Hnd as [|? ? Hx Hrest]; subst. constructor; [|auto].
    intros Hin. apply Hx. now apply (Subseq_In l1 l2).
Qed.

Create HintDb subseq.
#[local] Hint Resolve Subseq_refl Subseq_filter Subseq_map Subseq_app_r : subseq.

Lemma filter_none {A} (p : A -> bool) (l : list A) :
  (forall x, In x l -> p x = true) -> filter p l = l.
Proof.
  intros H. apply forallb_filter_id. now apply forallb_forall.
Qed.

(** C8.  [removeTransaction i] leaves the taxpayer info unchanged and keeps
    exactly the transactions whose id differs from [i], unchanged and in
    their order; where one transaction carries the id, exactly that one is
    deleted; where none does, the document is unchanged. *)
Theorem removeTransaction_spec (d : S1aFormState) (i : string) :
  info (removeTransaction i d) = info d
  /\ (forall t, In t (transactions (removeTransaction i d)) <->
                In t (transactions d) /\ id t <> i)
  /\ Subseq (transactions (removeTransaction i d)) (transactions d)
  /\ (forall l1 t l2,
        transactions d = l1 ++ t :: l2 -> id t = i ->
        (forall u, In u (l1 ++ l2) -> id u <> i) ->
        transactions (removeTransaction i d) = l1 ++ l2)
  /\ ((forall t, In t (transactions d) -> id t <> i) ->
      removeTransaction i d = d).
Proof.
  unfold removeTransaction. cbn [info transactions].
  split; [reflexivity|]. split; [|split; [apply Subseq_filter|split]].
  - intros t. rewrite filter_In. split; intros [Hin Hid]; split; auto.
    + intros E. rewrite E, String.eqb_refl in Hid. discriminate.
    + destruct (String.eqb_spec (id t) i); [contradiction|reflexivity].
  - intros l1 t l2 Hd Hid Hothers. rewrite Hd, filter_app. cbn [filter].
    rewrite Hid, String.eqb_refl. cbn [negb].
    rewrite <- filter_app. apply filter_none. intros u Hu.
    destruct (String.eqb_spec (id u) i) as [E|_]; [|reflexivity].
    now apply Hothers in Hu.
  - intros Hnone. destruct d as [inf txs]. cbn [info transactions] in *.
    f_equal. apply filter_none. intros u Hu.
    destruct (String.eqb_spec (id u) i) as [E|_]; [|reflexivity].
    now apply Hnone in Hu.
Qed.

Lemma removeTransaction_spec_witness :
  transactions (removeTransaction "1" SAMPLE_DATA)
    = [ {| id := "2"; date := "02/10/2023";
           description := "Cung cấp dịch vụ giao hàng"; amount := Num 500000 |} ]
  /\ removeTransaction "7" SAMPLE_DATA = SAMPLE_DATA.
Proof.
  split.
  - refine (proj1 (proj2 (proj2 (proj2 (removeTransaction_spec SAMPLE_DATA "1"))))
              [] _ [_] eq_refl eq_refl _).
    intros u [<-|[]]. discriminate.
  - apply (proj2 (proj2 (proj2 (proj2 (removeTransaction_spec SAMPLE_DATA "7"))))).
    intros t [<-|[<-|[]]]; discriminate.
Defined.

(** ** Sequences of transaction operations: ids and order *)

Lemma toString_inj a b : toString a = toString b -> a = b.
Proof.
  unfold toString. intros H. apply DecimalZ.to_int_inj.
  assert (E : Some (Z.to_int a) = Some (Z.to_int b)).
  { rewrite <- !NilEmpty.isi. now rewrite H. }
  now injection E.
Qed.

Lemma ids_updateTransaction i fv d :
  keeps_id (Op_updateTransaction i fv) = true ->
  ids (updateTransaction i fv d) = ids d.
Proof.
  unfold ids, updateTransaction. cbn [transactions]. intros Hk.
  rewrite map_map. apply map_ext. intros t.
  destruct (String.eqb (id t) i); [|reflexivity].
  destruct fv; try reflexivity. discriminate Hk.
Qed.

Lemma ids_removeTransaction i d :
  Subseq (ids (removeTransaction i d)) (ids d).
Proof.
  unfold ids, removeTransaction. cbn [transactions]. auto with subseq.
Qed.

Lemma ids_applyOp op d :
  keeps_id op = true ->
  Subseq (ids (applyOp op d)) (ids d ++ created_id op).
Proof.
  intros Hk. destruct op as [now today|now today result|i fv|i]; cbn [applyOp created_id].
  - unfold ids, addTransaction, appendTransaction. cbn [transactions].
    rewrite map_app. auto with subseq.
  - unfold ids, appendTransaction. cbn [transactions].
    rewrite map_app. auto with subseq.
  - rewrite ids_updateTransaction by exact Hk. rewrite app_nil_r. auto with subseq.
  - rewrite app_nil_r. apply ids_removeTransaction.
Qed.

(** The surviving transactions stay in insertion order: the ids of the
    document are the initial ids followed by the created ones, some left
    out. *)
Lemma insertion_order_preserved ops d :
  forallb keeps_id ops = true ->
  Subseq (ids (applyOps ops d)) (ids d ++ created_ids ops).
Proof.
  revert d. induction ops as [|op ops IH]; intros d Hk.
  - simpl. rewrite app_nil_r. apply Subseq_refl.
  - cbn [forallb] in Hk. apply andb_true_iff in Hk. destruct Hk as [Hop Hops].
    unfold applyOps. cbn [fold_left]. fold (applyOps ops (applyOp op d)).
    eapply Subseq_trans; [apply IH; exact Hops|].
    unfold created_ids. cbn [flat_map]. fold (created_ids ops).
    rewrite app_assoc. apply Subseq_app_r. now apply ids_applyOp.
Qed.

(** While every addition reads a clock value whose rendering is neither an
    id of the document nor one handed out before, ids stay unique. *)
Lemma ids_unique_when_fresh ops d :
  forallb keeps_id ops = true ->
  NoDup (ids d ++ created_ids ops) ->
  NoDup (ids (applyOps ops d)).
Proof.
  intros Hk Hnd. eapply Subseq_NoDup; [|exact Hnd].
  now apply insertion_order_preserved.
Qed.

Lemma created_ids_clock ops :
  created_ids ops = map toString (clock_readings ops).
Proof.
  unfold created_ids, clock_readings.
  induction ops as [|op ops IH]; [reflexivity|].
  cbn [flat_map]. rewrite map_app, IH. now destruct op.
Qed.

Lemma NoDup_map_toString l : NoDup l -> NoDup (map toString l).
Proof.
  induction 1 as [|z l Hz _ IH]; cbn [map]; constructor; [|exact IH].
  intros Hin. apply in_map_iff in Hin. destruct Hin as [y [Hy Hin]].
  apply toString_inj in Hy. now subst.
Qed.

(** From the default sample document, ids stay unique as long as the
    additions read pairwise distinct clock values other than 1 and 2 and
    no update writes the [id] field. *)
Corollary ids_unique_from_sample ops :
  forallb keeps_id ops = true ->
  NoDup (clock_readings ops) ->
  ~ In 1 (clock_readings ops) -> ~ In 2 (clock_readings ops) ->
  NoDup (ids (applyOps ops SAMPLE_DATA)).
Proof.
  intros Hk Hnd H1 H2. apply ids_unique_when_fresh; [exact Hk|].
  rewrite created_ids_clock.
  change (ids SAMPLE_DATA) with [toString 1; toString 2].
  change ([toString 1; toString 2] ++ map toString (clock_readings ops))
    with (map toString (1 :: 2 :: clock_readings ops)).
  apply NoDup_map_toString.
  constructor; [|constructor; assumption].
  intros [E|Hin]; [discriminate E|contradiction].
Qed.

(** C1.  From the default sample document, two additions that read the same
    clock value ([Date.now()] within one millisecond), by the button or by
    voice, produce two transactions with the same id: the ids are no longer
    pairwise unique, and removing by that id deletes both. *)
Theorem addTransaction_same_clock_duplicate_id :
  let d := applyOps [Op_addTransaction 1700000000000 "14/11/2023";
                     Op_addTransaction 1700000000000 "14/11/2023"] SAMPLE_DATA in
  let d' := applyOps [Op_addTransaction 1700000000000 "14/11/2023";
                      Op_smartVoiceAdd 1700000000000 "14/11/2023"
                        (mkParsed None None (Some (Num 5000000)))] SAMPLE_DATA in
  ids d = ["1"; "2"; "1700000000000"; "1700000000000"]
  /\ ~ NoDup (ids d)
  /\ ids (removeTransaction "1700000000000" d) = ["1"; "2"]
  /\ ids d' = ids d.
Proof.
  cbv zeta. split; [reflexivity|]. split; [|split; reflexivity].
  intros Hnd. change (NoDup ["1"; "2"; "1700000000000"; "1700000000000"]) in Hnd.
  inversion Hnd as [|? ? _ H1]; subst.
  inversion H1 as [|? ? _ H2]; subst.
  inversion H2 as [|? ? Hn _]; subst.
  apply Hn. now left.
Qed.

(** ** The voice-add pipeline *)

(** C3.  When the capture carries audio and [parseTransactionFromAudio]
    answers, the pipeline appends exactly one transaction; an answer with
    only [amount = 5000000] gives today's date, the non-empty placeholder
    description and the amount 5000000, and in general each field the
    answer omits takes its default instead of the answer being rejected. *)
Theorem handleSmartVoiceAdd_defaults
  (s : AppState) (audioBase64 mimeType : string) (now : Z) (today : string) :
  string_truthy audioBase64 = true ->
  (let result := {| parsed_date := None; parsed_description := None;
                    parsed_amount := Some (Num 5000000) |} in
   data (fst (run s [Ev_smartVoiceAdd audioBase64 mimeType;
                     Ev_smartVoiceAddSettled now today (Fulfilled result)]))
   = {| info := info (data s);
        transactions :=
          transactions (data s) ++
          [ {| id := toString now; date := today;
               description := "Giao dịch mới"; amount := Num 5000000 |} ] |})
  /\ "Giao dịch mới" <> EmptyString
  /\ (forall result, exists t,
        data (fst (run s [Ev_smartVoiceAdd audioBase64 mimeType;
                          Ev_smartVoiceAddSettled now today (Fulfilled result)]))
        = {| info := info (data s); transactions := transactions (data s) ++ [t] |}
        /\ (parsed_date result = None -> date t = today)
        /\ (parsed_description result = None -> description t = "Giao dịch mới")
        /\ (parsed_amount result = None -> amount t = Num 0)).
Proof.
  intros Haudio.
  assert (Hrun : forall result,
    data (fst (run s [Ev_smartVoiceAdd audioBase64 mimeType;
                      Ev_smartVoiceAddSettled now today (Fulfilled result)]))
    = appendTransaction (smartTransaction now today result) (data s)).
  { intros result. unfold run, step. cbn [handle]. unfold handleSmartVoiceAdd.
    rewrite Haudio. reflexivity. }
  split; [|split].
  - cbv zeta. rewrite Hrun. reflexivity.
  - discriminate.
  - intros result. exists (smartTransaction now today result).
    rewrite Hrun. split; [reflexivity|].
    unfold smartTransaction. cbn [date description amount].
    repeat split; intros ->; reflexivity.
Qed.

Lemma handleSmartVoiceAdd_defaults_witness :
  map amount
    (transactions
       (data (fst (run initialState
                     [Ev_smartVoiceAdd "UklGRg==" "audio/webm";
                      Ev_smartVoiceAddSettled 1700000000000 "14/11/2023"
                        (Fulfilled {| parsed_date := None;
                                      parsed_description := None;
                                      parsed_amount := Some (Num 5000000) |})]))))
  = [Num 2500000; Num 500000; Num 5000000].
Proof.
  rewrite (proj1 (handleSmartVoiceAdd_defaults initialState "UklGRg==" "audio/webm"
                    1700000000000 "14/11/2023" eq_refl)).
  reflexivity.
Defined.

(** ** Failures of the transcription calls *)

Lemma ObjRef_eqb_refl r : ObjRef_eqb r r = true.
Proof. destruct r; simpl; [reflexivity|apply Nat.eqb_refl]. Qed.

(** A render in which neither [data] nor [isLoaded] changed saves nothing. *)
Lemma persistEffect_unchanged a b :
  dataRef b = dataRef a -> isLoaded b = isLoaded a -> persistEffect a b = [].
Proof.
  intros Hr Hl. unfold persistEffect.
  now rewrite Hr, Hl, ObjRef_eqb_refl, Bool.eqb_reflx.
Qed.


Example missing_credential_on_name_field :
  let s' := fst (step initialState
                   (Ev_voiceForFieldSettled F_name (Rejected MissingCredential))) in
  apiKeyError s' = true /\ aiFeedback s' = Some "Lỗi: Chưa có API Key"
  /\ processingField s' = None /\ data s' = SAMPLE_DATA.
Proof. cbv zeta. repeat split; reflexivity. Qed.

Example service_unavailable_on_voice_add :
  let s' := fst (step initialState
                   (Ev_smartVoiceAddSettled 1700000000000 "14/11/2023"
                      (Rejected (Thrown (Some "503"))))) in
  apiKeyError s' = false /\ aiFeedback s' = Some "Lỗi kết nối AI. Thử lại sau."
  /\ isProcessingAI s' = false /\ data s' = SAMPLE_DATA.
Proof. cbv zeta. repeat split; reflexivity. Qed.



(** ** Capture requests on a busy target *)


(** The busy state is one slot: a capture on a second field unmarks the
    first, whose call is still in flight, and the end of either call
    unmarks both. *)
Lemma processingField_single_slot :
  let s1 := fst (step initialState
                   (captureRequest (T_infoField F_name) "Họ tên HKD" "UklGRg==" "audio/webm")) in
  let s2 := fst (step s1
                   (captureRequest (T_infoField F_taxId) "Mã số thuế" "UklGRg==" "audio/webm")) in
  let s3 := fst (step s2 (Ev_voiceForFieldSettled F_name (Fulfilled "Trần Thị B"))) in
  busy s1 (T_infoField F_name) = true
  /\ busy s2 (T_infoField F_name) = false
  /\ busy s2 (T_infoField F_taxId) = true
  /\ busy s3 (T_infoField F_taxId) = false.
Proof. cbv zeta. repeat split; reflexivity. Qed.

(** With the guard in front, a request on a target shown as busy changes
    nothing. *)
Lemma VoiceInput_capture_busy s t label audioBase64 mimeType :
  busy s t = true ->
  VoiceInput_capture s t label audioBase64 mimeType = (s, []).
Proof. intros H. unfold VoiceInput_capture. now rewrite H. Qed.




(** ** Persistence and the startup load *)

Lemma handle_no_save ev s : existsb is_save (snd (handle ev s)) = false.
Proof.
  destruct ev as [sd k|f v|now today|i fv|i|f l a m|f r|i a m|i r|a m|now today r| | |b|v|cb];
    cbn [handle snd]; try reflexivity;
    unfold handleVoiceForField_resume, handleVoiceForTransactionDesc_resume,
      handleSmartVoiceAdd, handleSmartVoiceAdd_resume, handleError;
    try destruct r as [x|e]; try destruct (string_truthy _);
    try destruct_error e; reflexivity.
Qed.

Lemma handle_isLoaded ev s :
  is_loadResolved ev = false -> isLoaded (fst (handle ev s)) = isLoaded s.
Proof.
  destruct ev as [sd k|f v|now today|i fv|i|f l a m|f r|i a m|i r|a m|now today r| | |b|v|cb];
    cbn [handle is_loadResolved]; intros H; try discriminate H; try reflexivity;
    unfold handleVoiceForField_resume, handleVoiceForTransactionDesc_resume,
      handleSmartVoiceAdd, handleSmartVoiceAdd_resume, handleError;
    try destruct r as [x|e]; try destruct (string_truthy _);
    try destruct_error e; try reflexivity.
  destruct cb; reflexivity.
Qed.

Lemma step_not_loaded ev s :
  is_loadResolved ev = false -> isLoaded s = false ->
  isLoaded (fst (step s ev)) = false /\ existsb is_save (snd (step s ev)) = false.
Proof.
  intros Hev Hs. pose proof (handle_isLoaded ev s Hev) as Hl.
  pose proof (handle_no_save ev s) as Hn.
  unfold step. destruct (handle ev s) as [s' fx]. cbn [fst snd] in *.
  rewrite Hs in Hl. split; [exact Hl|].
  rewrite existsb_app, Hn. unfold persistEffect. rewrite Hl.
  destruct (_ && _); reflexivity.
Qed.

Lemma run_not_loaded evs s :
  existsb is_loadResolved evs = false -> isLoaded s = false ->
  isLoaded (fst (run s evs)) = false /\ existsb is_save (snd (run s evs)) = false.
Proof.
  revert s. induction evs as [|ev evs IH]; intros s Hevs Hs.
  - split; [exact Hs|reflexivity].
  - cbn [existsb] in Hevs. apply orb_false_iff in Hevs. destruct Hevs as [Hev Hrest].
    destruct (step_not_loaded ev s Hev Hs) as [Hl Hn].
    cbn [run]. destruct (step s ev) as [s1 fx1]. cbn [fst snd] in *.
    destruct (IH s1 Hrest Hl) as [Hl2 Hn2].
    destruct (run s1 evs) as [s2 fx2]. cbn [fst snd] in *.
    split; [exact Hl2|]. now rewrite existsb_app, Hn, Hn2.
Qed.

(** C5.  In every execution, up to the event that resumes [initData] after
    [loadFromDB] nothing is saved, whatever the user did meanwhile; that
    event puts the loaded document, if there is one, in place of the
    in-memory document, and only then is the first save issued, of the
    document now in memory. *)
Theorem no_save_before_load
  (pre : list Event) (savedData : option S1aFormState) (API_KEY : option string) :
  existsb is_loadResolved pre = false ->
  let s0 := fst (run initialState pre) in
  let s1 := fst (step s0 (Ev_loadResolved savedData API_KEY)) in
  existsb is_save (mountEffects ++ snd (run initialState pre)) = false
  /\ isLoaded s0 = false
  /\ isLoaded s1 = true
  /\ data s1 = match savedData with Some d => d | None => data s0 end
  /\ snd (step s0 (Ev_loadResolved savedData API_KEY)) = [E_saveToDB (data s1)].
Proof.
  intros Hpre. cbv zeta.
  destruct (run_not_loaded pre initialState Hpre eq_refl) as [Hl Hn].
  split; [exact Hn|]. split; [exact Hl|].
  set (s0 := fst (run initialState pre)) in *.
  unfold step. cbn [handle fst snd app]. unfold initData_resume.
  assert (Hp : forall s', isLoaded s' = true ->
             persistEffect s0 s' = [E_saveToDB (data s')]).
  { intros s' Hs'. unfold persistEffect. rewrite Hl, Hs'.
    rewrite andb_false_r. reflexivity. }
  destruct savedData as [d|]; destruct (isApiKeyMissing API_KEY);
    (split; [reflexivity|]); (split; [reflexivity|]);
    rewrite Hp by reflexivity; reflexivity.
Qed.

Lemma no_save_before_load_witness :
  let pre := [Ev_addTransaction 1700000000000 "14/11/2023";
              Ev_infoChange F_name "Trần Thị B";
              Ev_removeTransaction "1"] in
  let stored := handleInfoChange F_period "Tháng 11/2023" SAMPLE_DATA in
  existsb is_save (snd (run initialState pre)) = false
  /\ snd (step (fst (run initialState pre)) (Ev_loadResolved (Some stored) (Some "key")))
     = [E_saveToDB stored].
Proof.
  cbv zeta.
  pose proof (no_save_before_load
                [Ev_addTransaction 1700000000000 "14/11/2023";
                 Ev_infoChange F_name "Trần Thị B";
                 Ev_removeTransaction "1"]
                (Some (handleInfoChange F_period "Tháng 11/2023" SAMPLE_DATA))
                (Some "key") eq_refl) as H.
  cbv zeta in H. destruct H as [H1 [_ [_ [H4 H5]]]].
  split; [exact H1|]. rewrite H5, H4. reflexivity.
Defined.

(** ** Reset *)

(** C6, as stated, fails: on a fresh installation the store is empty, the
    startup saves the default sample, and a reset then clears the store;
    [setData(SAMPLE_DATA)] sets the very object already in memory, so the
    persistence effect does not run and nothing is saved again.  A load
    after that reset returns absent, not the default sample document.
    And when [clearDB()] rejects, the document in memory is not replaced. *)
Lemma reset_then_load_absent :
  let boot := run initialState [Ev_loadResolved (loadFromDB None) (Some "key")] in
  let st0 := db_exec true (snd boot) None in
  let st' := snd (fst (reset true true (fst boot) st0)) in
  let edited := fst (step (fst boot) (Ev_removeTransaction "1")) in
  st0 = Some SAMPLE_DATA
  /\ loadFromDB st' = None
  /\ loadFromDB st' <> Some SAMPLE_DATA
  /\ data (fst (fst (reset false true edited st0))) <> SAMPLE_DATA.
Proof.
  cbv zeta. split; [reflexivity|]. split; [reflexivity|].
  split; discriminate.
Qed.

Lemma reset_resolved s st saveOk :
  reset true saveOk s st =
  (handleReset_resume s,
   db_exec saveOk (persistEffect s (handleReset_resume s)) None,
   E_clearDB :: persistEffect s (handleReset_resume s)).
Proof.
  unfold reset, step. cbn [handle handleReset].
  rewrite (persistEffect_unchanged s s) by reflexivity. reflexivity.
Qed.

Lemma db_exec_no_save ok fx :
  existsb is_save fx = false -> db_exec ok fx None = None.
Proof.
  unfold db_exec. induction fx as [|e fx IH]; [reflexivity|].
  cbn [existsb fold_left]. intros H. apply orb_false_iff in H.
  destruct H as [He Hfx].
  destruct e; try discriminate He; cbn [db_apply clearDB];
    try destruct ok; now apply IH.
Qed.

(** C6, amended.  When [clearDB()] resolves and no save is issued between
    the call of handleReset and its continuation (as when no other event
    is handled in between, or only events that leave the document alone),
    reset has called the store's clear, before anything else changed, and
    then puts the default sample document in memory; whatever the state
    and the store were, and whether or not the save that may follow
    succeeds, the store afterwards is empty or holds the default sample
    document, never earlier state, so a start of the program from it shows
    the default sample document. *)
Theorem handleReset_leaves_sample
  (s : AppState) (st : Store) (mid : list Event) (midOk saveOk : bool)
  (API_KEY : option string) :
  let s1 := fst (step s Ev_reset) in
  let st1 := db_exec true (snd (step s Ev_reset)) st in
  let s2 := fst (run s1 mid) in
  let st2 := db_exec midOk (snd (run s1 mid)) st1 in
  let s3 := fst (step s2 Ev_resetCleared) in
  let st3 := db_exec saveOk (snd (step s2 Ev_resetCleared)) st2 in
  existsb is_save (snd (run s1 mid)) = false ->
  step s Ev_reset = (s, [E_clearDB])
  /\ data s3 = SAMPLE_DATA
  /\ (loadFromDB st3 = None \/ loadFromDB st3 = Some SAMPLE_DATA)
  /\ data (startup st3 API_KEY) = SAMPLE_DATA.
Proof.
  cbv zeta.
  assert (Hreset : step s Ev_reset = (s, [E_clearDB])).
  { unfold step. cbn [handle handleReset].
    now rewrite (persistEffect_unchanged s s) by reflexivity. }
  rewrite Hreset. cbn [fst snd]. intros Hmid.
  change (db_exec true [E_clearDB] st) with (@None S1aFormState).
  rewrite (db_exec_no_save midOk _ Hmid).
  set (s2 := fst (run s mid)).
  split; [reflexivity|].
  assert (Hres : step s2 Ev_resetCleared
                 = (handleReset_resume s2, persistEffect s2 (handleReset_resume s2)))
    by reflexivity.
  rewrite Hres. cbn [fst snd].
  split; [reflexivity|].
  assert (Hst : db_exec saveOk (persistEffect s2 (handleReset_resume s2)) None = None
             \/ db_exec saveOk (persistEffect s2 (handleReset_resume s2)) None
                = Some SAMPLE_DATA).
  { unfold persistEffect. destruct (_ && _); [now left|].
    destruct (negb _); [now left|].
    cbn [db_exec fold_left db_apply saveToDB handleReset_resume data
         setShowResetConfirm setData_SAMPLE].
    destruct saveOk; [now right|now left]. }
  split; [exact Hst|].
  unfold startup, loadFromDB, step. cbn [handle fst]. unfold initData_resume.
  destruct Hst as [-> | ->]; destruct (isApiKeyMissing API_KEY); reflexivity.
Qed.

Lemma handleReset_leaves_sample_witness :
  let stored := removeTransaction "1" SAMPLE_DATA in
  let s := fst (run initialState [Ev_loadResolved (Some stored) (Some "key")]) in
  let mid := [Ev_setView PREVIEW;
              Ev_voiceForField F_name "Họ tên HKD" "UklGRg==" "audio/webm"] in
  let s2 := fst (run (fst (step s Ev_reset)) mid) in
  data s = stored
  /\ data (fst (step s2 Ev_resetCleared)) = SAMPLE_DATA
  /\ data (startup
             (db_exec true (snd (step s2 Ev_resetCleared))
                (db_exec true (snd (run (fst (step s Ev_reset)) mid))
                   (db_exec true (snd (step s Ev_reset)) (Some stored))))
             (Some "key")) = SAMPLE_DATA.
Proof.
  cbv zeta. split; [reflexivity|].
  pose proof (handleReset_leaves_sample
                (fst (run initialState
                        [Ev_loadResolved (Some (removeTransaction "1" SAMPLE_DATA))
                           (Some "key")]))
                (Some (removeTransaction "1" SAMPLE_DATA))
                [Ev_setView PREVIEW;
                 Ev_voiceForField F_name "Họ tên HKD" "UklGRg==" "audio/webm"]
                true true (Some "key") eq_refl) as H.
  cbv zeta in H. destruct H as [_ [H2 [_ H4]]]. split; [exact H2|exact H4].
Defined.

(** Why the condition: when a capture settles while [clearDB()] is awaited,
    its edit is saved, and if the save of the sample then fails, the store
    keeps that edit of the earlier document. *)
Lemma reset_interleaved_save :
  let stored := removeTransaction "1" SAMPLE_DATA in
  let s := fst (run initialState [Ev_loadResolved (Some stored) (Some "key")]) in
  let mid := [Ev_voiceForFieldSettled F_name (Fulfilled "Trần Thị B")] in
  let s1 := fst (step s Ev_reset) in
  let st1 := db_exec true (snd (step s Ev_reset)) (Some stored) in
  let s2 := fst (run s1 mid) in
  let st2 := db_exec true (snd (run s1 mid)) st1 in
  let st3 := db_exec false (snd (step s2 Ev_resetCleared)) st2 in
  existsb is_save (snd (run s1 mid)) = true
  /\ data (fst (step s2 Ev_resetCleared)) = SAMPLE_DATA
  /\ loadFromDB st3 = Some (handleInfoChange F_name "Trần Thị B" stored).
Proof. cbv zeta. repeat split; reflexivity. Qed.

(** A rejected [clearDB()] stops handleReset: memory and store stay. *)
Lemma reset_clear_failed s st saveOk :
  reset false saveOk s st = (s, st, [E_clearDB]).
Proof.
  unfold reset, step. cbn [handle handleReset].
  now rewrite (persistEffect_unchanged s s) by reflexivity.
Qed.

(** After earlier state was stored and loaded, a reset whose save succeeds
    leaves the default sample document in the store. *)
Lemma reset_after_stored_state s st :
  isLoaded s = true -> dataRef s <> SampleRef ->
  loadFromDB (snd (fst (reset true true s st))) = Some SAMPLE_DATA.
Proof.
  intros Hl Hr. rewrite reset_resolved. cbn [fst snd].
  unfold persistEffect.
  cbn [handleReset_resume dataRef isLoaded setShowResetConfirm setData_SAMPLE data].
  rewrite Hl. destruct (dataRef s) as [|n]; [contradiction|]. reflexivity.
Qed.

(** * Further properties of the component *)

(** ** The amount input *)

Lemma string_filter_app p s1 s2 :
  string_filter p (String.append s1 s2)
  = String.append (string_filter p s1) (string_filter p s2).
Proof.
  induction s1 as [|c r IH]; cbn [String.append string_filter]; [reflexivity|].
  destruct (p c); cbn [String.append]; now rewrite IH.
Qed.

Lemma cleanValue_app s1 s2 :
  cleanValue (String.append s1 s2) = String.append (cleanValue s1) (cleanValue s2).
Proof. unfold cleanValue. now rewrite !string_filter_app. Qed.

Lemma cleanValue_non_digit c :
  is_digit c = false -> cleanValue (String c EmptyString) = EmptyString.
Proof.
  intros H. unfold cleanValue. cbn [string_filter].
  destruct (negb (is_dot c)); cbn [string_filter]; now rewrite ?H.
Qed.

Lemma cleanValue_digit c :
  is_digit c = true -> cleanValue (String c EmptyString) = String c EmptyString.
Proof.
  intros H. unfold cleanValue. cbn [string_filter].
  rewrite (is_digit_not_dot c H). cbn [negb string_filter]. now rewrite H.
Qed.

Lemma amount_ok_toNumber z : 0 <= z -> amount_ok (toNumber z) = true.
Proof.
  intros Hz. destruct (toNumber_nonneg z Hz) as [->|[v [Hv ->]]]; [reflexivity|].
  cbn [amount_ok]. now apply Z.leb_le.
Qed.

Lemma parseAmountInput_amount_ok value :
  amount_ok (parseAmountInput value) = true.
Proof.
  rewrite parseAmountInput_digits.
  destruct (digit_prefix (cleanValue value));
    [reflexivity | ..]; apply amount_ok_toNumber, of_uint_bound.
Qed.

(** X1.  Whatever is typed into the amount input, [parseAmountInput]
    returns a non-negative integer or positive infinity: never NaN, never
    negative infinity, never a negative number. *)
Theorem parseAmountInput_never_NaN_never_negative (value : string) :
  amount_ok (parseAmountInput value) = true
  /\ parseAmountInput value <> NaN
  /\ parseAmountInput value <> NegInfinity
  /\ (forall z, parseAmountInput value = Num z -> 0 <= z).
Proof.
  pose proof (parseAmountInput_amount_ok value) as H.
  split; [exact H|].
  destruct (parseAmountInput value) as [z| | |]; cbn [amount_ok] in H;
    try discriminate H; repeat split; try discriminate.
  intros z' [= <-]. now apply Z.leb_le.
Qed.

Lemma parseAmountInput_safe_value value :
  (String.length (cleanValue value) <= 15)%nat ->
  0 <= Z.of_uint (digit_prefix (cleanValue value)) < 2 ^ 53
  /\ parseAmountInput value = Num (Z.of_uint (digit_prefix (cleanValue value))).
Proof.
  intros Hlen.
  assert (Hb : 0 <= Z.of_uint (digit_prefix (cleanValue value)) < 2 ^ 53).
  { pose proof (of_uint_bound (digit_prefix (cleanValue value))) as [H0 H1].
    split; [exact H0|]. eapply Z.lt_le_trans; [exact H1|].
    apply Z.le_trans with (10 ^ 15); [|now vm_compute].
    apply Z.pow_le_mono_r; [lia|].
    pose proof (digit_prefix_nb_digits (cleanValue value)). lia. }
  split; [exact Hb|]. rewrite parseAmountInput_digits.
  pose proof (safe_integer_is_double _ Hb) as Hd. unfold is_double in Hd.
  destruct (digit_prefix (cleanValue value)) eqn:E; first [exact Hd | reflexivity].
Qed.

(** X2.  An input with at most 15 digits is read exactly: the amount is
    the integer its digits denote, all other characters being ignored. *)
Theorem parseAmountInput_exact_up_to_15_digits (value : string) :
  (String.length (cleanValue value) <= 15)%nat ->
  parseAmountInput value = Num (Z.of_uint (digit_prefix (cleanValue value))).
Proof.
  intros Hlen. exact (proj2 (parseAmountInput_safe_value value Hlen)).
Qed.

Lemma parseAmountInput_exact_up_to_15_digits_witness :
  parseAmountInput "12.500.000 đ" = Num 12500000.
Proof.
  rewrite (parseAmountInput_exact_up_to_15_digits "12.500.000 đ").
  - reflexivity.
  - vm_compute. lia.
Defined.

(** X3.  A character that is not a decimal digit changes nothing, wherever
    it stands in the input: separators, letters, signs, spaces and currency
    symbols are all ignored. *)
Theorem parseAmountInput_ignores_non_digits (s1 s2 : string) (c : ascii) :
  is_digit c = false ->
  parseAmountInput (String.append s1 (String c s2))
  = parseAmountInput (String.append s1 s2).
Proof.
  intros Hc. rewrite !parseAmountInput_digits.
  change (String c s2) with (String.append (String c EmptyString) s2).
  rewrite !cleanValue_app, (cleanValue_non_digit c Hc). reflexivity.
Qed.

Lemma parseAmountInput_ignores_non_digits_witness :
  parseAmountInput "-1.5" = parseAmountInput "1.5"
  /\ parseAmountInput "1.5" = parseAmountInput "15".
Proof.
  split.
  - exact (parseAmountInput_ignores_non_digits EmptyString "1.5" "-"%char eq_refl).
  - exact (parseAmountInput_ignores_non_digits "1" "5" "."%char eq_refl).
Defined.

Lemma all_digits_cons c s :
  all_digits (String c s) -> is_digit c = true /\ all_digits s.
Proof. unfold all_digits. cbn [list_ascii_of_string]. intros H. now inversion H. Qed.

Lemma of_uint_acc_snoc s c acc :
  all_digits s -> is_digit c = true ->
  Z.pos (Pos.of_uint_acc (digit_prefix (String.append s (String c EmptyString))) acc)
  = 10 * Z.pos (Pos.of_uint_acc (digit_prefix s) acc) + digit_value c.
Proof.
  intros Hs Hc. revert acc. induction s as [|h t IH]; intros acc.
  - cbn [String.append]. destruct_ascii c; try discriminate Hc;
      cbn [digit_prefix Pos.of_uint_acc digit_value]; lia.
  - apply all_digits_cons in Hs. destruct Hs as [Hh Ht]. specialize (IH Ht).
    cbn [String.append]. destruct_ascii h; try discriminate Hh;
      cbn [digit_prefix Pos.of_uint_acc]; apply IH.
Qed.

(** Appending a digit to a digit string multiplies its value by ten and
    adds the digit. *)
Lemma of_uint_snoc s c :
  all_digits s -> is_digit c = true ->
  Z.of_uint (digit_prefix (String.append s (String c EmptyString)))
  = 10 * Z.of_uint (digit_prefix s) + digit_value c.
Proof.
  intros Hs Hc. induction s as [|h t IH].
  - cbn [String.append]. destruct_ascii c; try discriminate Hc; reflexivity.
  - apply all_digits_cons in Hs. destruct Hs as [Hh Ht]. specialize (IH Ht).
    cbn [String.append]. destruct_ascii h; try discriminate Hh;
      cbn [digit_prefix]; unfold Z.of_uint in *; cbn [Pos.of_uint Z.of_N];
      first [exact IH | apply of_uint_acc_snoc; assumption].
Qed.

Lemma digit_value_range c : 0 <= digit_value c <= 9.
Proof. destruct_ascii c; cbn [digit_value]; lia. Qed.

Lemma decimal_digits_value a :
  0 <= a -> Z.of_uint (digit_prefix (decimal_digits a)) = a.
Proof.
  intros Ha. unfold decimal_digits. rewrite digit_prefix_string_of_uint.
  unfold Z.of_uint. change (Pos.of_uint ?d) with (N.of_uint d).
  rewrite DecimalN.Unsigned.of_to. now apply Z2N.id.
Qed.

(** X4.  Typing one more digit at the end of the displayed amount makes the
    amount ten times the old one plus the digit, as long as the new amount
    stays below 2^53; this covers the empty display of a zero amount. *)
Theorem parseAmountInput_typed_digit (a : Z) (c : ascii) :
  0 <= a -> 10 * a + 9 < 2 ^ 53 -> is_digit c = true ->
  parseAmountInput (String.append (formatAmountInput (Num a)) (String c EmptyString))
  = Num (10 * a + digit_value c).
Proof.
  intros Ha Hb Hc. pose proof (digit_value_range c) as Hr.
  assert (Hd : toNumber (10 * a + digit_value c) = Num (10 * a + digit_value c)).
  { apply safe_integer_is_double. lia. }
  rewrite parseAmountInput_digits, cleanValue_app, (cleanValue_digit c Hc).
  unfold formatAmountInput, number_eqb.
  destruct (Z.eqb_spec a 0) as [->|Hne].
  - change (cleanValue EmptyString) with EmptyString. cbn [String.append].
    destruct_ascii c; try discriminate Hc; reflexivity.
  - unfold toLocaleString_viVN. destruct (Z.ltb_spec a 0); [lia|].
    rewrite shortest_digits_safe by lia.
    rewrite cleanValue_group_thousands by apply string_of_uint_all_digits.
    pose proof (of_uint_snoc (decimal_digits a) c
                  (string_of_uint_all_digits _) Hc) as Hv.
    rewrite (decimal_digits_value a Ha) in Hv.
    destruct (digit_prefix (String.append (decimal_digits a) (String c EmptyString)))
      eqn:E; try (rewrite Hv; exact Hd).
    change (Z.of_uint Nil) with 0 in Hv. lia.
Qed.

Lemma parseAmountInput_typed_digit_witness :
  parseAmountInput (String.append (formatAmountInput (Num 2500000)) "7")
  = Num 25000007
  /\ parseAmountInput (String.append (formatAmountInput (Num 0)) "7") = Num 7.
Proof.
  assert (H1 : 0 <= 2500000) by lia.
  assert (H2 : 10 * 2500000 + 9 < 2 ^ 53) by (vm_compute; reflexivity).
  assert (H3 : 0 <= 0) by lia.
  assert (H4 : 10 * 0 + 9 < 2 ^ 53) by (vm_compute; reflexivity).
  split.
  - exact (parseAmountInput_typed_digit 2500000 "7"%char H1 H2 eq_refl).
  - exact (parseAmountInput_typed_digit 0 "7"%char H3 H4 eq_refl).
Defined.

(** X5.  The display of an amount determines it: two non-negative amounts
    shown alike are equal, and only the amount 0 is shown as the empty
    text (where the placeholder appears). *)
Theorem formatAmountInput_injective (a b : Z) :
  0 <= a -> 0 <= b -> is_double a -> is_double b ->
  (formatAmountInput (Num a) = formatAmountInput (Num b) -> a = b)
  /\ (formatAmountInput (Num a) = EmptyString -> a = 0).
Proof.
  intros Ha Hb Hda Hdb.
  assert (Hinj : forall x y, 0 <= x -> 0 <= y -> is_double x -> is_double y ->
            formatAmountInput (Num x) = formatAmountInput (Num y) -> x = y).
  { intros x y Hx Hy Hdx Hdy E.
    pose proof (amount_roundtrip x Hx Hdx) as Rx.
    pose proof (amount_roundtrip y Hy Hdy) as Ry.
    rewrite E, Ry in Rx. now injection Rx. }
  split; [now apply Hinj|].
  intros E. exact (Hinj a 0 Ha (Z.le_refl 0) Hda eq_refl E).
Qed.

Lemma formatAmountInput_injective_witness :
  formatAmountInput (Num 2500000) <> formatAmountInput (Num 250000)
  /\ formatAmountInput (Num 2500000) <> EmptyString.
Proof.
  assert (H1 : 0 <= 2500000) by lia. assert (H2 : 0 <= 250000) by lia.
  split; intros E.
  - apply (proj1 (formatAmountInput_injective 2500000 250000 H1 H2 eq_refl eq_refl)) in E.
    discriminate E.
  - apply (proj2 (formatAmountInput_injective 2500000 250000 H1 H2 eq_refl eq_refl)) in E.
    discriminate E.
Defined.

(** ** The document operations *)

Lemma id_set_transaction_field t fv :
  writes_id fv = false -> id (set_transaction_field t fv) = id t.
Proof. destruct fv; cbn; intros H; try reflexivity. discriminate H. Qed.

(** X6.  [updateTransaction] with a write to date, description or amount
    touches only the transactions that carry the id: the info, the ids and
    their order stay, every transaction with another id is kept as it is,
    each transaction with the id is the old one with the field written,
    and when no transaction carries the id the document is unchanged. *)
Theorem updateTransaction_touches_only_target
  (d : S1aFormState) (i : string) (fv : FieldValue) :
  writes_id fv = false ->
  info (updateTransaction i fv d) = info d
  /\ ids (updateTransaction i fv d) = ids d
  /\ (forall t, id t <> i ->
        (In t (transactions (updateTransaction i fv d)) <-> In t (transactions d)))
  /\ (forall t', In t' (transactions (updateTransaction i fv d)) -> id t' = i ->
        exists t, In t (transactions d) /\ id t = i
                  /\ t' = set_transaction_field t fv)
  /\ ((forall t, In t (transactions d) -> id t <> i) ->
      updateTransaction i fv d = d).
Proof.
  intros Hw. split; [reflexivity|]. split; [|split; [|split]].
  - apply ids_updateTransaction. destruct fv; try reflexivity. discriminate Hw.
  - intros t Ht. unfold updateTransaction. cbn [transactions].
    rewrite in_map_iff. split.
    + intros [t0 [E Hin]]. destruct (String.eqb_spec (id t0) i) as [Ei|_].
      * subst t. rewrite id_set_transaction_field in Ht by exact Hw. contradiction.
      * now subst.
    + intros Hin. exists t. split; [|exact Hin].
      destruct (String.eqb_spec (id t) i); [contradiction|reflexivity].
  - intros t' Hin Hid. unfold updateTransaction in Hin. cbn [transactions] in Hin.
    apply in_map_iff in Hin. destruct Hin as [t0 [E Hin]].
    destruct (String.eqb_spec (id t0) i) as [Ei|Hne].
    + exists t0. auto.
    + subst t'. contradiction.
  - intros Hnone. destruct d as [inf txs]. unfold updateTransaction.
    cbn [info transactions] in *. f_equal.
    rewrite <- (map_id txs) at 2. apply map_ext_in. intros t Hin.
    destruct (String.eqb_spec (id t) i) as [E|_]; [|reflexivity].
    now apply Hnone in Hin.
Qed.

Lemma updateTransaction_touches_only_target_witness :
  ids (updateTransaction "2" (Set_description "Giao hàng") SAMPLE_DATA) = ["1"; "2"]
  /\ updateTransaction "9" (Set_amount (Num 5)) SAMPLE_DATA = SAMPLE_DATA.
Proof.
  split.
  - exact (proj1 (proj2 (updateTransaction_touches_only_target
                          SAMPLE_DATA "2" (Set_description "Giao hàng") eq_refl))).
  - apply (proj2 (proj2 (proj2 (proj2 (updateTransaction_touches_only_target
                          SAMPLE_DATA "9" (Set_amount (Num 5)) eq_refl))))).
    intros t [<-|[<-|[]]]; discriminate.
Defined.

Lemma set_transaction_field_twice t a b :
  same_field a b = true ->
  set_transaction_field (set_transaction_field t a) b = set_transaction_field t b.
Proof. destruct a, b; cbn; intros H; try discriminate H; reflexivity. Qed.

Lemma set_transaction_field_comm t a b :
  same_field a b = false ->
  set_transaction_field (set_transaction_field t a) b
  = set_transaction_field (set_transaction_field t b) a.
Proof. destruct a, b; cbn; intros H; try discriminate H; reflexivity. Qed.

(** X7.  Of two writes to the same field of the same transaction the last
    one wins: the document is as if only the second had been made. *)
Theorem updateTransaction_last_write_wins
  (d : S1aFormState) (i : string) (a b : FieldValue) :
  same_field a b = true -> writes_id a = false ->
  updateTransaction i b (updateTransaction i a d) = updateTransaction i b d.
Proof.
  intros Hs Hw. unfold updateTransaction. cbn [info transactions]. f_equal.
  rewrite map_map. apply map_ext. intros t.
  destruct (String.eqb_spec (id t) i) as [E|Hne].
  - rewrite id_set_transaction_field by exact Hw.
    rewrite E, String.eqb_refl. now apply set_transaction_field_twice.
  - destruct (String.eqb_spec (id t) i); [contradiction|reflexivity].
Qed.

Lemma updateTransaction_last_write_wins_witness :
  updateTransaction "1" (Set_amount (Num 25))
    (updateTransaction "1" (Set_amount (Num 2)) SAMPLE_DATA)
  = updateTransaction "1" (Set_amount (Num 25)) SAMPLE_DATA.
Proof.
  exact (updateTransaction_last_write_wins SAMPLE_DATA "1"
           (Set_amount (Num 2)) (Set_amount (Num 25)) eq_refl eq_refl).
Defined.

(** X8.  Writes that do not touch the id field commute when they go to
    different transactions or to different fields: the order in which
    such edits arrive does not matter. *)
Theorem updateTransaction_commute
  (d : S1aFormState) (i j : string) (a b : FieldValue) :
  writes_id a = false -> writes_id b = false ->
  i <> j \/ same_field a b = false ->
  updateTransaction i a (updateTransaction j b d)
  = updateTransaction j b (updateTransaction i a d).
Proof.
  intros Ha Hb Hdiff. unfold updateTransaction. cbn [info transactions]. f_equal.
  rewrite !map_map. apply map_ext. intros t.
  destruct (String.eqb (id t) j) eqn:Ej; destruct (String.eqb (id t) i) eqn:Ei;
    rewrite ?id_set_transaction_field by assumption; rewrite ?Ei, ?Ej;
    try reflexivity.
  destruct Hdiff as [Hij|Hf].
  - apply String.eqb_eq in Ei, Ej. congruence.
  - symmetry. now apply set_transaction_field_comm.
Qed.

Lemma updateTransaction_commute_witness :
  updateTransaction "1" (Set_date "03/10/2023")
    (updateTransaction "1" (Set_amount (Num 7)) SAMPLE_DATA)
  = updateTransaction "1" (Set_amount (Num 7))
      (updateTransaction "1" (Set_date "03/10/2023") SAMPLE_DATA).
Proof.
  exact (updateTransaction_commute SAMPLE_DATA "1" "1"
           (Set_date "03/10/2023") (Set_amount (Num 7)) eq_refl eq_refl
           (or_intror eq_refl)).
Defined.

(** X9.  Adding a transaction and then removing it by its new id gives the
    document back, provided the id drawn from the clock was not already
    in use. *)
Theorem addTransaction_then_remove
  (d : S1aFormState) (now : Z) (today : string) :
  ~ In (toString now) (ids d) ->
  removeTransaction (toString now) (addTransaction now today d) = d.
Proof.
  intros Hfresh. destruct d as [inf txs].
  unfold removeTransaction, addTransaction, appendTransaction, ids in *.
  cbn [info transactions] in *. f_equal.
  rewrite filter_app. cbn [filter id]. rewrite String.eqb_refl. cbn [negb].
  rewrite app_nil_r. apply filter_none. intros t Hin.
  destruct (String.eqb_spec (id t) (toString now)) as [E|_]; [|reflexivity].
  exfalso. apply Hfresh. rewrite <- E. now apply in_map.
Qed.

Lemma addTransaction_then_remove_witness :
  removeTransaction "1700000000000"
    (addTransaction 1700000000000 "14/11/2023" SAMPLE_DATA) = SAMPLE_DATA.
Proof.
  apply (addTransaction_then_remove SAMPLE_DATA 1700000000000 "14/11/2023").
  intros [H|[H|[]]]; discriminate H.
Defined.

(** X10.  Removing is idempotent and removals commute; after a removal no
    transaction carries the id, and the document never grows. *)
Theorem removeTransaction_compose (d : S1aFormState) (i j : string) :
  removeTransaction i (removeTransaction i d) = removeTransaction i d
  /\ removeTransaction i (removeTransaction j d)
     = removeTransaction j (removeTransaction i d)
  /\ ~ In i (ids (removeTransaction i d))
  /\ (List.length (transactions (removeTransaction i d))
      <= List.length (transactions d))%nat.
Proof.
  unfold removeTransaction, ids. cbn [info transactions].
  split; [|split; [|split]].
  - f_equal. apply filter_none. intros t Hin. now apply filter_In in Hin.
  - f_equal. induction (transactions d) as [|t l IH]; [reflexivity|].
    cbn [filter].
    destruct (negb (String.eqb (id t) j)) eqn:Ej;
      destruct (negb (String.eqb (id t) i)) eqn:Ei;
      cbn [filter]; rewrite ?Ei, ?Ej, IH; reflexivity.
  - intros Hin. apply in_map_iff in Hin. destruct Hin as [t [E Hin]].
    apply filter_In in Hin. destruct Hin as [_ Hne].
    rewrite E, String.eqb_refl in Hne. discriminate Hne.
  - apply filter_length_le.
Qed.

(** X11.  [handleInfoChange] writes one info field: the field reads back
    the value, every other field and all transactions are as before, a
    second write to the field replaces the first, and writes to different
    fields commute. *)
Theorem handleInfoChange_spec
  (d : S1aFormState) (f g : InfoField) (v w : string) :
  get_info_field (info (handleInfoChange f v d)) f = v
  /\ (g <> f ->
      get_info_field (info (handleInfoChange f v d)) g = get_info_field (info d) g)
  /\ transactions (handleInfoChange f v d) = transactions d
  /\ handleInfoChange f w (handleInfoChange f v d) = handleInfoChange f w d
  /\ (g <> f ->
      handleInfoChange f v (handleInfoChange g w d)
      = handleInfoChange g w (handleInfoChange f v d)).
Proof.
  split; [now destruct f|]. split; [|split; [reflexivity|split]].
  - intros Hne. destruct f, g; try reflexivity; now contradiction Hne.
  - now destruct f.
  - intros Hne. destruct f, g; try reflexivity; now contradiction Hne.
Qed.

Lemma handleInfoChange_spec_witness :
  period (info (handleInfoChange F_name "Trần Thị B" SAMPLE_DATA)) = "Tháng 10/2023"
  /\ handleInfoChange F_name "Trần Thị B" (handleInfoChange F_taxId "0101" SAMPLE_DATA)
     = handleInfoChange F_taxId "0101" (handleInfoChange F_name "Trần Thị B" SAMPLE_DATA).
Proof.
  assert (H1 : F_period <> F_name) by discriminate.
  assert (H2 : F_taxId <> F_name) by discriminate.
  split.
  - exact (proj1 (proj2 (handleInfoChange_spec SAMPLE_DATA F_name F_period
                           "Trần Thị B" EmptyString)) H1).
  - exact (proj2 (proj2 (proj2 (proj2 (handleInfoChange_spec SAMPLE_DATA F_name F_taxId
                           "Trần Thị B" "0101")))) H2).
Defined.

(** X12.  Over any sequence of additions (by button or by voice), removals
    and updates that write no id, the ids of the document are the initial
    ids followed by the created ones, in that order, with the removed ones
    left out; and if the document had unique ids, the additions read
    pairwise distinct clock values and none of them renders to an id of the
    document, the ids are still unique at the end. *)
Theorem ledger_ops_keep_order_and_uniqueness
  (ops : list LedgerOp) (d : S1aFormState) :
  forallb keeps_id ops = true ->
  Subseq (ids (applyOps ops d)) (ids d ++ map toString (clock_readings ops))
  /\ (NoDup (ids d) -> NoDup (clock_readings ops) ->
      (forall z, In z (clock_readings ops) -> ~ In (toString z) (ids d)) ->
      NoDup (ids (applyOps ops d))).
Proof.
  intros Hk. rewrite <- created_ids_clock. split.
  - now apply insertion_order_preserved.
  - intros Hd Hc Hfresh. apply ids_unique_when_fresh; [exact Hk|].
    apply NoDup_app; [exact Hd| |].
    + rewrite created_ids_clock. now apply NoDup_map_toString.
    + intros a Ha Hin. rewrite created_ids_clock in Hin.
      apply in_map_iff in Hin. destruct Hin as [z [<- Hz]].
      now apply (Hfresh z).
Qed.

Lemma ledger_ops_keep_order_and_uniqueness_witness :
  let ops := [Op_addTransaction 1700000000000 "14/11/2023";
              Op_removeTransaction "1";
              Op_smartVoiceAdd 1700000000123 "14/11/2023"
                (mkParsed None None (Some (Num 5000000)));
              Op_updateTransaction "2" (Set_amount (Num 1))] in
  ids (applyOps ops SAMPLE_DATA) = ["2"; "1700000000000"; "1700000000123"]
  /\ NoDup (ids (applyOps ops SAMPLE_DATA)).
Proof.
  cbv zeta. split; [reflexivity|].
  apply (proj2 (ledger_ops_keep_order_and_uniqueness
                  [Op_addTransaction 1700000000000 "14/11/2023";
                   Op_removeTransaction "1";
                   Op_smartVoiceAdd 1700000000123 "14/11/2023"
                     (mkParsed None None (Some (Num 5000000)));
                   Op_updateTransaction "2" (Set_amount (Num 1))]
                  SAMPLE_DATA eq_refl)).
  - repeat constructor; cbn; intuition discriminate.
  - repeat constructor; cbn; intuition discriminate.
  - intros z [<-|[<-|[]]] [H|[H|[]]]; discriminate H.
Defined.

(** ** The edit form *)

Lemma run_cons s ev rest :
  fst (run s (ev :: rest)) = fst (run (fst (step s ev)) rest).
Proof.
  cbn [run]. destruct (step s ev) as [s1 fx1]. cbn [fst].
  now destruct (run s1 rest).
Qed.

Lemma data_step_mutation s ev :
  data (fst (step s ev)) =
  match ev with
  | Ev_infoChange f v => handleInfoChange f v (data s)
  | Ev_addTransaction now today => addTransaction now today (data s)
  | Ev_updateTransaction i fv => updateTransaction i fv (data s)
  | Ev_removeTransaction i => removeTransaction i (data s)
  | _ => data (fst (step s ev))
  end.
Proof. destruct ev; reflexivity. Qed.

Lemma amounts_ok_step s e :
  amounts_ok (data s) = true ->
  amounts_ok (data (fst (step s (formEvent e)))) = true.
Proof.
  unfold amounts_ok. intros H.
  destruct e as [f v|now today|i|i v|i v|i v]; cbn [formEvent];
    rewrite data_step_mutation.
  - exact H.
  - unfold addTransaction, appendTransaction. cbn [transactions].
    rewrite forallb_app, H. reflexivity.
  - unfold removeTransaction. cbn [transactions].
    apply forallb_forall. intros t Hin. apply filter_In in Hin.
    rewrite forallb_forall in H. now apply H.
  - unfold updateTransaction. cbn [transactions].
    apply forallb_forall. intros t Hin. apply in_map_iff in Hin.
    destruct Hin as [t0 [<- Hin]]. rewrite forallb_forall in H.
    destruct (String.eqb (id t0) i); cbn; now apply H.
  - unfold updateTransaction. cbn [transactions].
    apply forallb_forall. intros t Hin. apply in_map_iff in Hin.
    destruct Hin as [t0 [<- Hin]]. rewrite forallb_forall in H.
    destruct (String.eqb (id t0) i); cbn; now apply H.
  - unfold updateTransaction. cbn [transactions].
    apply forallb_forall. intros t Hin. apply in_map_iff in Hin.
    destruct Hin as [t0 [<- Hin]]. rewrite forallb_forall in H.
    destruct (String.eqb (id t0) i); cbn [set_transaction_field amount];
      [apply parseAmountInput_amount_ok | now apply H].
Qed.

(** X13.  Through the edit form alone (info inputs, add, remove, date,
    description and amount inputs, in any order and number) no amount ever
    becomes NaN or negative: if every amount of the document is a
    non-negative integer or positive infinity, so is every amount after
    the edits. *)
Theorem form_edits_keep_amounts_ok (edits : list FormEdit) (s : AppState) :
  amounts_ok (data s) = true ->
  amounts_ok (data (fst (run s (map formEvent edits)))) = true.
Proof.
  revert s. induction edits as [|e edits IH]; intros s H; [exact H|].
  cbn [map]. rewrite run_cons. apply IH. now apply amounts_ok_step.
Qed.

Lemma form_edits_keep_amounts_ok_witness :
  amounts_ok (data (fst (run initialState
    (map formEvent [Form_add 1700000000000 "14/11/2023";
                    Form_amount "1700000000000" "-12,5 abc";
                    Form_remove "2";
                    Form_amount "1" EmptyString])))) = true.
Proof.
  exact (form_edits_keep_amounts_ok
           [Form_add 1700000000000 "14/11/2023";
            Form_amount "1700000000000" "-12,5 abc";
            Form_remove "2";
            Form_amount "1" EmptyString] initialState eq_refl).
Defined.

(** ** Persistence after the startup load *)

Lemma ref_allocated_initial : ref_allocated initialState.
Proof. exact I. Qed.

Lemma ref_allocated_setData f s : ref_allocated (setData f s).
Proof. unfold ref_allocated. cbn. lia. Qed.

Lemma ref_allocated_same s s' :
  dataRef s' = dataRef s -> nextRef s' = nextRef s ->
  ref_allocated s -> ref_allocated s'.
Proof. unfold ref_allocated. now intros -> ->. Qed.

Lemma ref_allocated_handle ev s :
  ref_allocated s -> ref_allocated (fst (handle ev s)).
Proof.
  intros H.
  destruct ev as [sd k|f v|now today|i fv|i|f l a m|f r|i a m|i r|a m|now today r| | |b|v|cb];
    cbn [handle fst]; try apply ref_allocated_setData; try exact H.
  - unfold initData_resume. destruct sd as [d|]; destruct (isApiKeyMissing k);
      try exact H; unfold ref_allocated; cbn; lia.
  - unfold handleVoiceForField_resume, handleError. destruct r as [text|e];
      [destruct (string_truthy text)|destruct_error e]; cbn [fst];
      try exact H; unfold ref_allocated; cbn; lia.
  - unfold handleVoiceForTransactionDesc_resume, handleError. destruct r as [text|e];
      [destruct (string_truthy text)|destruct_error e]; cbn [fst];
      try exact H; unfold ref_allocated; cbn; lia.
  - unfold handleSmartVoiceAdd. destruct (negb _); exact H.
  - unfold handleSmartVoiceAdd_resume, handleError. destruct r as [res|e];
      [|destruct_error e]; cbn [fst];
      try exact H; unfold ref_allocated; cbn; lia.
  - exact I.
  - destruct cb; exact H.
Qed.

Lemma ref_allocated_run evs s :
  ref_allocated s -> ref_allocated (fst (run s evs)).
Proof.
  revert s. induction evs as [|ev evs IH]; intros s H; [exact H|].
  rewrite run_cons. apply IH. unfold step.
  pose proof (ref_allocated_handle ev s H) as H'.
  now destruct (handle ev s).
Qed.

Lemma ObjRef_eqb_fresh s :
  ref_allocated s -> ObjRef_eqb (dataRef s) (FreshRef (nextRef s)) = false.
Proof.
  unfold ref_allocated. destruct (dataRef s) as [|n]; [reflexivity|].
  intros H. cbn [ObjRef_eqb]. apply Nat.eqb_neq. lia.
Qed.

(** X14.  Once the startup load has resolved, every edit of the document
    (info change, add, update, remove), in whatever state the program has
    reached, issues exactly one save, and what it saves is the document as
    it is after the edit. *)
Theorem mutation_is_saved (pre : list Event) (ev : Event) :
  let s := fst (run initialState pre) in
  isLoaded s = true -> is_mutation ev = true ->
  snd (step s ev) = [E_saveToDB (data (fst (step s ev)))].
Proof.
  cbv zeta. intros Hl Hm.
  pose proof (ref_allocated_run pre initialState ref_allocated_initial) as Hr.
  set (s := fst (run initialState pre)) in *.
  destruct ev; try discriminate Hm; unfold step; cbn [handle fst snd app];
    unfold persistEffect; cbn [dataRef isLoaded setData data];
    rewrite (ObjRef_eqb_fresh s Hr), Hl; reflexivity.
Qed.

Lemma mutation_is_saved_witness :
  snd (step (fst (run initialState [Ev_loadResolved None (Some "key")]))
         (Ev_removeTransaction "1"))
  = [E_saveToDB (removeTransaction "1" SAMPLE_DATA)].
Proof.
  exact (mutation_is_saved [Ev_loadResolved None (Some "key")]
           (Ev_removeTransaction "1") eq_refl eq_refl).
Defined.

(** X15.  Starting a capture, a failed transcription call, asking for a
    reset, the reset dialog, the view switch and the timers never change
    the document and never save, in any state. *)
Theorem passive_events_keep_document (s : AppState) (ev : Event) :
  is_passive ev = true ->
  data (fst (step s ev)) = data s
  /\ existsb is_save (snd (step s ev)) = false.
Proof.
  intros Hp.
  assert (H : dataRef (fst (handle ev s)) = dataRef s
              /\ isLoaded (fst (handle ev s)) = isLoaded s
              /\ data (fst (handle ev s)) = data s).
  { destruct ev as [sd k|f v|now today|i fv|i|f l a m|f r|i a m|i r|a m|now today r| | |b|v|cb];
      try discriminate Hp; cbn [handle fst];
      try (destruct r as [x|e]; [discriminate Hp|]);
      unfold handleVoiceForField_resume, handleVoiceForTransactionDesc_resume,
        handleSmartVoiceAdd, handleSmartVoiceAdd_resume, handleError;
      try destruct (negb _); try destruct_error e;
      try destruct cb; repeat split; reflexivity. }
  destruct H as [Hr [Hl Hd]]. pose proof (handle_no_save ev s) as Hn.
  unfold step. destruct (handle ev s) as [s' fx]. cbn [fst snd] in *.
  split; [exact Hd|].
  now rewrite existsb_app, Hn, (persistEffect_unchanged s s' Hr Hl).
Qed.

Lemma passive_events_keep_document_witness :
  data (fst (step initialState (Ev_setView PREVIEW))) = SAMPLE_DATA
  /\ existsb is_save
       (snd (step initialState
               (Ev_voiceForFieldSettled F_name (Rejected MissingCredential)))) = false.
Proof.
  split.
  - exact (proj1 (passive_events_keep_document initialState (Ev_setView PREVIEW) eq_refl)).
  - exact (proj2 (passive_events_keep_document initialState
                    (Ev_voiceForFieldSettled F_name (Rejected MissingCredential))
                    eq_refl)).
Defined.

Lemma existsb_is_save_In fx d :
  existsb is_save fx = false -> ~ In (E_saveToDB d) fx.
Proof.
  intros H Hin. assert (E : existsb is_save fx = true).
  { apply existsb_exists. exists (E_saveToDB d). now split. }
  rewrite H in E. discriminate E.
Qed.

(** X16.  Whatever the event and the state, a save that is issued carries
    the document that is in memory after the event, and is issued only
    when the startup load has resolved: no stale or partial document is
    ever written. *)
Theorem save_carries_current_document (s : AppState) (ev : Event) (d : S1aFormState) :
  In (E_saveToDB d) (snd (step s ev)) ->
  d = data (fst (step s ev)) /\ isLoaded (fst (step s ev)) = true.
Proof.
  pose proof (handle_no_save ev s) as Hn.
  unfold step. destruct (handle ev s) as [s' fx]. cbn [fst snd] in *.
  intros Hin. apply in_app_or in Hin. destruct Hin as [Hin|Hin].
  - now apply existsb_is_save_In in Hin.
  - unfold persistEffect in Hin. destruct (_ && _); [contradiction|].
    destruct (isLoaded s'); cbn [negb] in Hin; [|contradiction].
    destruct Hin as [[= <-]|[]]. now split.
Qed.

Lemma save_carries_current_document_witness :
  let s := fst (run initialState [Ev_loadResolved None (Some "key")]) in
  isLoaded (fst (step s (Ev_infoChange F_name "Trần Thị B"))) = true.
Proof.
  cbv zeta.
  refine (proj2 (save_carries_current_document
                   (fst (run initialState [Ev_loadResolved None (Some "key")]))
                   (Ev_infoChange F_name "Trần Thị B")
                   (handleInfoChange F_name "Trần Thị B" SAMPLE_DATA) _)).
  left. reflexivity.
Defined.

Lemma flags_monotone_handle ev s :
  (apiKeyError s = true -> apiKeyError (fst (handle ev s)) = true)
  /\ (isLoaded s = true -> isLoaded (fst (handle ev s)) = true).
Proof.
  destruct ev as [sd k|f v|now today|i fv|i|f l a m|f r|i a m|i r|a m|now today r| | |b|v|cb];
    cbn [handle fst];
    unfold initData_resume, handleVoiceForField_resume,
      handleVoiceForTransactionDesc_resume, handleSmartVoiceAdd,
      handleSmartVoiceAdd_resume, handleError;
    try destruct sd; try destruct (isApiKeyMissing _);
    try destruct r as [x|e]; try destruct (string_truthy _); cbn [negb];
    try destruct_error e; try destruct cb;
    split; intros H; cbn; auto.
Qed.

(** X17.  The two flags only go up: once the AI-unavailable flag is set no
    event clears it, and once the startup load is marked resolved no event
    unmarks it, over any sequence of events. *)
Theorem flags_never_cleared (evs : list Event) (s : AppState) :
  (apiKeyError s = true -> apiKeyError (fst (run s evs)) = true)
  /\ (isLoaded s = true -> isLoaded (fst (run s evs)) = true).
Proof.
  revert s. induction evs as [|ev evs IH]; intros s; [split; auto|].
  rewrite run_cons.
  assert (Hs : fst (step s ev) = fst (handle ev s)).
  { unfold step. now destruct (handle ev s). }
  rewrite Hs. destruct (flags_monotone_handle ev s) as [Ha Hl].
  destruct (IH (fst (handle ev s))) as [IHa IHl].
  split; intros H; auto.
Qed.

Lemma flags_never_cleared_witness :
  let evs := [Ev_voiceForFieldSettled F_name (Fulfilled "Trần Thị B");
              Ev_reset; Ev_resetCleared; Ev_timer ClearFeedback;
              Ev_loadResolved None (Some "key")] in
  let s := fst (step initialState
                  (Ev_smartVoiceAddSettled 0 EmptyString (Rejected MissingCredential))) in
  apiKeyError s = true /\ apiKeyError (fst (run s evs)) = true.
Proof.
  cbv zeta. split; [reflexivity|].
  exact (proj1 (flags_never_cleared
                  [Ev_voiceForFieldSettled F_name (Fulfilled "Trần Thị B");
                   Ev_reset; Ev_resetCleared; Ev_timer ClearFeedback;
                   Ev_loadResolved None (Some "key")]
                  (fst (step initialState
                          (Ev_smartVoiceAddSettled 0 EmptyString
                             (Rejected MissingCredential))))) eq_refl).
Defined.

(** ** The settled transcription calls *)

Lemma string_truthy_nonempty s : s <> EmptyString -> string_truthy s = true.
Proof. destruct s; [contradiction|reflexivity]. Qed.

(** X18.  When the transcription for an info field settles, the busy mark
    is cleared in every case and the transactions are never touched; a
    non-empty text becomes the value of that field and of no other, an
    empty text and a failure leave the document as it was, the empty text
    without any effect at all. *)
Theorem voiceForField_settled (s : AppState) (f : InfoField) (r : Settled string) :
  let s' := fst (step s (Ev_voiceForFieldSettled f r)) in
  processingField s' = None
  /\ transactions (data s') = transactions (data s)
  /\ (forall text, r = Fulfilled text -> text <> EmptyString ->
        get_info_field (info (data s')) f = text
        /\ forall g, g <> f ->
             get_info_field (info (data s')) g = get_info_field (info (data s)) g)
  /\ (r = Fulfilled EmptyString ->
        data s' = data s /\ snd (step s (Ev_voiceForFieldSettled f r)) = [])
  /\ (forall e, r = Rejected e -> data s' = data s).
Proof.
  cbv zeta. unfold step. cbn [handle]. unfold handleVoiceForField_resume.
  destruct r as [text|e].
  - destruct text as [|c t]; cbn [string_truthy fst snd].
    + split; [reflexivity|]. split; [reflexivity|]. split; [|split].
      * intros text [= <-] Hne. now contradiction Hne.
      * intros _. split; [reflexivity|].
        now rewrite persistEffect_unchanged by reflexivity.
      * intros e [=].
    + split; [reflexivity|]. split; [reflexivity|]. split; [|split].
      * intros text [= <-] _. cbn [data setProcessingField setData].
        split; [now destruct f|].
        intros g Hne. destruct f, g; try reflexivity; now contradiction Hne.
      * intros [=].
      * intros e [=].
  - unfold handleError. destruct_error e; cbn [fst snd];
      (split; [reflexivity|]); (split; [reflexivity|]);
      (split; [intros text [=]|]); (split; [intros [=]|]); intros e' _; reflexivity.
Qed.

Lemma voiceForField_settled_witness :
  taxId (info (data (fst (step initialState
    (Ev_voiceForFieldSettled F_taxId (Fulfilled "0101234567")))))) = "0101234567"
  /\ step initialState (Ev_voiceForFieldSettled F_taxId (Fulfilled EmptyString))
     = (initialState, []).
Proof.
  split.
  - refine (proj1 (proj1 (proj2 (proj2 (voiceForField_settled initialState F_taxId
              (Fulfilled "0101234567")))) "0101234567" eq_refl _)).
    discriminate.
  - pose proof (proj2 (proj1 (proj2 (proj2 (proj2 (voiceForField_settled initialState
              F_taxId (Fulfilled EmptyString))))) eq_refl)) as H.
    reflexivity.
Defined.

Lemma updateTransaction_absent i fv d :
  (forall t, In t (transactions d) -> id t <> i) -> updateTransaction i fv d = d.
Proof.
  intros Hnone. destruct d as [inf txs]. unfold updateTransaction.
  cbn [info transactions] in *. f_equal.
  rewrite <- (map_id txs) at 2. apply map_ext_in. intros t Hin.
  destruct (String.eqb_spec (id t) i) as [E|_]; [|reflexivity].
  now apply Hnone in Hin.
Qed.

Lemma updateTransaction_description_keeps i text d :
  map amount (transactions (updateTransaction i (Set_description text) d))
  = map amount (transactions d)
  /\ map date (transactions (updateTransaction i (Set_description text) d))
     = map date (transactions d).
Proof.
  unfold updateTransaction. cbn [transactions]. rewrite !map_map.
  split; apply map_ext; intros t; now destruct (String.eqb (id t) i).
Qed.

(** X19.  When the transcription for a transaction description settles,
    the busy mark is cleared and the info, the ids, the dates and the
    amounts of all transactions are as before, whatever the outcome; a
    non-empty text becomes the description of the transactions with that
    id; and if the transaction was removed in the meantime, the document
    is left exactly as it is. *)
Theorem voiceForTransactionDesc_settled
  (s : AppState) (i : string) (r : Settled string) :
  let s' := fst (step s (Ev_voiceForTransactionDescSettled i r)) in
  processingField s' = None
  /\ info (data s') = info (data s)
  /\ ids (data s') = ids (data s)
  /\ map amount (transactions (data s')) = map amount (transactions (data s))
  /\ map date (transactions (data s')) = map date (transactions (data s))
  /\ (forall text t', r = Fulfilled text -> text <> EmptyString ->
        In t' (transactions (data s')) -> id t' = i -> description t' = text)
  /\ ((forall t, In t (transactions (data s)) -> id t <> i) -> data s' = data s).
Proof.
  cbv zeta. unfold step. cbn [handle]. unfold handleVoiceForTransactionDesc_resume.
  destruct r as [text|e].
  - destruct (string_truthy text) eqn:Et; cbn [fst processingField data
      setProcessingField setData].
    + destruct (updateTransaction_description_keeps i text (data s)) as [Ha Hd].
      split; [reflexivity|]. split; [reflexivity|].
      split; [now apply ids_updateTransaction|].
      split; [exact Ha|]. split; [exact Hd|]. split.
      * intros text' t' [= <-] _ Hin Hid.
        unfold updateTransaction in Hin. cbn [transactions] in Hin.
        apply in_map_iff in Hin. destruct Hin as [t0 [E Hin]].
        destruct (String.eqb_spec (id t0) i) as [_|Hne]; subst t';
          [reflexivity|contradiction].
      * intros Hnone. now apply updateTransaction_absent.
    + repeat split; try reflexivity.
      intros text' t' [= <-] Hne. apply string_truthy_nonempty in Hne.
      rewrite Hne in Et. discriminate Et.
  - unfold handleError. destruct_error e; cbn [fst];
      repeat split; try reflexivity; intros text t' [=].
Qed.

Lemma voiceForTransactionDesc_settled_witness :
  let s := fst (run initialState
                  [Ev_voiceForTransactionDesc "1" "UklGRg==" "audio/webm";
                   Ev_removeTransaction "1"]) in
  data (fst (step s (Ev_voiceForTransactionDescSettled "1" (Fulfilled "Bán gạo"))))
  = removeTransaction "1" SAMPLE_DATA.
Proof.
  cbv zeta.
  rewrite (proj2 (proj2 (proj2 (proj2 (proj2 (proj2
    (voiceForTransactionDesc_settled
       (fst (run initialState
               [Ev_voiceForTransactionDesc "1" "UklGRg==" "audio/webm";
                Ev_removeTransaction "1"]))
       "1" (Fulfilled "Bán gạo")))))))).
  - reflexivity.
  - intros t [<-|[]]. discriminate.
Defined.

(** X20.  The whole-ledger capture: without audio the request does nothing
    at all, with audio it marks processing and shows the analysing text
    without touching the document; when the call settles, processing is
    unmarked in every case, a failure leaves the document as it was, and a
    success appends exactly one transaction after the existing ones, shows
    the success text and arms the 3000 ms timer that clears it. *)
Theorem smartVoiceAdd_lifecycle
  (s : AppState) (audioBase64 mimeType : string) (now : Z) (today : string)
  (r : Settled ParsedTransaction) :
  let begun := step s (Ev_smartVoiceAdd audioBase64 mimeType) in
  let ended := step s (Ev_smartVoiceAddSettled now today r) in
  (audioBase64 = EmptyString -> begun = (s, []))
  /\ (audioBase64 <> EmptyString ->
        isProcessingAI (fst begun) = true
        /\ aiFeedback (fst begun) = Some "AI đang phân tích..."
        /\ data (fst begun) = data s)
  /\ isProcessingAI (fst ended) = false
  /\ (forall e, r = Rejected e -> data (fst ended) = data s)
  /\ (forall result, r = Fulfilled result ->
        transactions (data (fst ended))
        = transactions (data s) ++ [smartTransaction now today result]
        /\ info (data (fst ended)) = info (data s)
        /\ aiFeedback (fst ended) = Some "Đã thêm thành công!"
        /\ In (E_setTimeout ClearFeedback 3000) (snd ended)).
Proof.
  cbv zeta. split; [|split; [|split; [|split]]].
  - intros ->. unfold step. cbn [handle]. unfold handleSmartVoiceAdd.
    cbn [string_truthy negb]. now rewrite persistEffect_unchanged by reflexivity.
  - intros Hne. apply string_truthy_nonempty in Hne.
    unfold step. cbn [handle]. unfold handleSmartVoiceAdd. rewrite Hne.
    cbn [negb fst]. repeat split; reflexivity.
  - unfold step. cbn [handle]. unfold handleSmartVoiceAdd_resume, handleError.
    destruct r as [res|e]; [|destruct_error e]; reflexivity.
  - intros e ->. unfold step. cbn [handle].
    unfold handleSmartVoiceAdd_resume, handleError.
    destruct_error e; reflexivity.
  - intros result ->. unfold step. cbn [handle].
    unfold handleSmartVoiceAdd_resume. cbn [fst snd].
    repeat split; try reflexivity. left. reflexivity.
Qed.

Lemma smartVoiceAdd_lifecycle_witness :
  step initialState (Ev_smartVoiceAdd EmptyString "audio/webm") = (initialState, [])
  /\ isProcessingAI (fst (step initialState (Ev_smartVoiceAdd "UklGRg==" "audio/webm")))
     = true.
Proof.
  split.
  - exact (proj1 (smartVoiceAdd_lifecycle initialState EmptyString "audio/webm"
                    0 EmptyString (Rejected MissingCredential)) eq_refl).
  - refine (proj1 (proj1 (proj2 (smartVoiceAdd_lifecycle initialState "UklGRg=="
                    "audio/webm" 0 EmptyString (Rejected MissingCredential))) _)).
    discriminate.
Defined.

(** X21.  The transaction built from the service's answer never has an
    empty description and never a NaN amount, and it has a date whenever
    today's date is not empty.  The amount is not sanitised as in the
    amount input: an amount of the answer that is a non-zero integer, a
    negative one included, or an infinity is stored as it is; an absent,
    zero or NaN amount becomes 0. *)
Theorem smartTransaction_fields
  (now : Z) (today : string) (result : ParsedTransaction) :
  let t := smartTransaction now today result in
  id t = toString now
  /\ description t <> EmptyString
  /\ amount t <> NaN
  /\ (today <> EmptyString -> date t <> EmptyString)
  /\ (forall x, parsed_amount result = Some x -> number_truthy x = true ->
        amount t = x)
  /\ (forall z, parsed_amount result = Some (Num z) -> z <> 0 -> amount t = Num z)
  /\ (parsed_amount result = Some PosInfinity -> amount t = PosInfinity)
  /\ (parsed_amount result = Some NegInfinity -> amount t = NegInfinity)
  /\ (parsed_amount result = None \/ parsed_amount result = Some (Num 0)
      \/ parsed_amount result = Some NaN -> amount t = Num 0).
Proof.
  cbv zeta. unfold smartTransaction. cbn [id description amount date].
  split; [reflexivity|]. split; [|split; [|split; [|split; [|split]]]].
  - unfold or_string. destruct (parsed_description result) as [[|c d]|];
      cbn [string_truthy]; discriminate.
  - unfold or_number. destruct (parsed_amount result) as [[z| | |]|];
      cbn [number_truthy]; try discriminate.
    destruct (negb (z =? 0)); discriminate.
  - intros Hne. unfold or_string. destruct (parsed_date result) as [[|c d]|];
      cbn [string_truthy]; try exact Hne. discriminate.
  - intros x -> Hx. unfold or_number. now rewrite Hx.
  - intros z -> Hz. unfold or_number. cbn [number_truthy].
    destruct (Z.eqb_spec z 0); [contradiction|reflexivity].
  - split; [now intros ->|]. split; [now intros ->|].
    intros [-> | [-> | ->]]; reflexivity.
Qed.

Lemma smartTransaction_fields_witness :
  amount (smartTransaction 1700000000000 "14/11/2023"
            (mkParsed (Some EmptyString) None (Some (Num (-5000))))) = Num (-5000)
  /\ date (smartTransaction 1700000000000 "14/11/2023"
             (mkParsed (Some EmptyString) None (Some (Num (-5000))))) <> EmptyString.
Proof.
  assert (Hz : -5000 <> 0) by lia.
  assert (Ht : "14/11/2023" <> EmptyString) by discriminate.
  pose proof (smartTransaction_fields 1700000000000 "14/11/2023"
                (mkParsed (Some EmptyString) None (Some (Num (-5000))))) as H.
  cbv zeta in H. destruct H as [_ [_ [_ [Hdate [_ [Hint _]]]]]].
  split; [exact (Hint (-5000) eq_refl Hz)|exact (Hdate Ht)].
Defined.

(** X22.  A reset does not cancel a capture in flight: when the
    transcription of an info field settles after the reset with a
    non-empty text, the text is written into the fresh sample document. *)
Theorem capture_settling_after_reset
  (s : AppState) (f : InfoField) (text : string) :
  text <> EmptyString ->
  data (fst (run s [Ev_reset; Ev_resetCleared;
                    Ev_voiceForFieldSettled f (Fulfilled text)]))
  = handleInfoChange f text SAMPLE_DATA.
Proof.
  intros Hne. apply string_truthy_nonempty in Hne.
  rewrite !run_cons. cbn [run fst]. unfold step. cbn [handle fst handleReset].
  unfold handleVoiceForField_resume. rewrite Hne. reflexivity.
Qed.

Lemma capture_settling_after_reset_witness :
  name (info (data (fst (run initialState
    [Ev_reset; Ev_resetCleared;
     Ev_voiceForFieldSettled F_name (Fulfilled "Trần Thị B")])))) = "Trần Thị B".
Proof.
  rewrite (capture_settling_after_reset initialState F_name "Trần Thị B").
  - reflexivity.
  - discriminate.
Defined.

(** X23.  When the startup load resolves, the load is marked resolved, the
    AI-unavailable flag is set if the API key is absent, empty or the text
    "undefined" and is otherwise left as it was, the loaded document, if
    any, is in memory, and the view, the busy marks and the notification
    are untouched. *)
Theorem initData_resume_spec
  (s : AppState) (savedData : option S1aFormState) (API_KEY : option string) :
  let s' := fst (step s (Ev_loadResolved savedData API_KEY)) in
  isLoaded s' = true
  /\ apiKeyError s' = (isApiKeyMissing API_KEY || apiKeyError s)
  /\ (isApiKeyMissing API_KEY = false <->
      exists k, API_KEY = Some k /\ k <> EmptyString /\ k <> "undefined")
  /\ data s' = match savedData with Some d => d | None => data s end
  /\ view s' = view s /\ processingField s' = processingField s
  /\ isProcessingAI s' = isProcessingAI s /\ aiFeedback s' = aiFeedback s.
Proof.
  cbv zeta. unfold step. cbn [handle fst]. unfold initData_resume.
  split; [destruct savedData, (isApiKeyMissing API_KEY); reflexivity|].
  split; [destruct savedData, (isApiKeyMissing API_KEY); reflexivity|].
  split.
  - unfold isApiKeyMissing. destruct API_KEY as [k|].
    + split.
      * intros H. exists k. split; [reflexivity|].
        apply orb_false_iff in H. destruct H as [H Hu].
        apply orb_false_iff in H. destruct H as [_ He].
        split; [now apply String.eqb_neq|now apply String.eqb_neq].
      * intros [k' [[= <-] [He Hu]]].
        apply String.eqb_neq in He, Hu. rewrite He, Hu.
        destruct k; [now rewrite String.eqb_refl in He|reflexivity].
    + split; [discriminate|]. intros [k [H _]]. discriminate H.
  - destruct savedData, (isApiKeyMissing API_KEY); repeat split; reflexivity.
Qed.

(** ** The busy mark *)

Lemma target_key_inj t1 t2 :
  uses_processingField t1 = true -> uses_processingField t2 = true ->
  target_key t1 = target_key t2 -> t1 = t2.
Proof.
  destruct t1 as [f|i|], t2 as [g|j|]; cbn; intros H1 H2 E;
    try discriminate H1; try discriminate H2.
  - destruct f, g; try reflexivity; discriminate E.
  - destruct f; discriminate E.
  - destruct g; discriminate E.
  - injection E as E. now subst.
Qed.

Lemma busy_target_key s t :
  uses_processingField t = true ->
  busy s t = option_string_eqb (processingField s) (target_key t).
Proof. destruct t; cbn; intros H; try reflexivity. discriminate H. Qed.

(** X24.  The busy mark of the info fields and the descriptions is a single
    slot.  A capture request on one of these targets marks it and unmarks
    every other one, also one whose call is still in flight; the end of
    any of these calls, whatever its outcome, unmarks them all; and none of
    this touches the mark of the whole-ledger capture. *)
Theorem busy_mark_single_slot
  (s : AppState) (t1 t2 : CaptureTarget) (label audioBase64 mimeType : string)
  (f : InfoField) (i : string) (r : Settled string) :
  uses_processingField t1 = true -> uses_processingField t2 = true ->
  let started := fst (step s (captureRequest t2 label audioBase64 mimeType)) in
  let ended1 := fst (step s (Ev_voiceForFieldSettled f r)) in
  let ended2 := fst (step s (Ev_voiceForTransactionDescSettled i r)) in
  busy started t2 = true
  /\ (t1 <> t2 -> busy started t1 = false)
  /\ busy ended1 t1 = false /\ busy ended2 t1 = false
  /\ busy started T_newTransaction = busy s T_newTransaction
  /\ busy ended1 T_newTransaction = busy s T_newTransaction
  /\ busy ended2 T_newTransaction = busy s T_newTransaction.
Proof.
  intros H1 H2. cbv zeta.
  assert (Hstart : processingField
            (fst (step s (captureRequest t2 label audioBase64 mimeType)))
            = Some (target_key t2)
          /\ isProcessingAI
               (fst (step s (captureRequest t2 label audioBase64 mimeType)))
             = isProcessingAI s).
  { destruct t2 as [g|j|]; try discriminate H2; split; reflexivity. }
  assert (Hend1 : processingField (fst (step s (Ev_voiceForFieldSettled f r))) = None
          /\ isProcessingAI (fst (step s (Ev_voiceForFieldSettled f r)))
             = isProcessingAI s).
  { unfold step. cbn [handle]. unfold handleVoiceForField_resume, handleError.
    destruct r as [text|e];
      [destruct (string_truthy text)|destruct_error e];
      split; reflexivity. }
  assert (Hend2 : processingField
            (fst (step s (Ev_voiceForTransactionDescSettled i r))) = None
          /\ isProcessingAI (fst (step s (Ev_voiceForTransactionDescSettled i r)))
             = isProcessingAI s).
  { unfold step. cbn [handle].
    unfold handleVoiceForTransactionDesc_resume, handleError.
    destruct r as [text|e];
      [destruct (string_truthy text)|destruct_error e];
      split; reflexivity. }
  destruct Hstart as [Hs Hsa], Hend1 as [He1 He1a], Hend2 as [He2 He2a].
  rewrite !busy_target_key by assumption. rewrite Hs, He1, He2.
  cbn [option_string_eqb busy]. rewrite String.eqb_refl.
  repeat split; try assumption.
  intros Hne. apply String.eqb_neq. intros E. apply Hne.
  symmetry. now apply target_key_inj.
Qed.

Lemma busy_mark_single_slot_witness :
  let s := fst (step initialState
                  (captureRequest (T_infoField F_name) "Họ tên HKD" "UklGRg==" "audio/webm")) in
  busy s (T_infoField F_name) = true
  /\ busy (fst (step s (captureRequest (T_transactionDesc "1") EmptyString
                          "UklGRg==" "audio/webm"))) (T_infoField F_name) = false.
Proof.
  cbv zeta. split; [reflexivity|].
  refine (proj1 (proj2 (busy_mark_single_slot
            (fst (step initialState
                    (captureRequest (T_infoField F_name) "Họ tên HKD" "UklGRg==" "audio/webm")))
            (T_infoField F_name) (T_transactionDesc "1") EmptyString "UklGRg==" "audio/webm"
            F_name "1" (Fulfilled EmptyString) eq_refl eq_refl)) _).
  discriminate.
Defined.

(** ** The amount input and the stored amount *)

(** X25.  An amount input with at most 308 digits stores a non-negative
    integer in every transaction that carries the id, and the amounts of
    the other transactions stay as they were. *)
Theorem amount_input_stores_integer
  (d : S1aFormState) (i value : string) (t : Transaction) :
  (String.length (cleanValue value) <= 308)%nat ->
  In t (transactions (onAmountChange i value d)) ->
  (id t = i -> exists n, 0 <= n /\ amount t = Num n)
  /\ (id t <> i -> In t (transactions d)).
Proof.
  intros Hlen Hin. split.
  - intros Hid. rewrite (onAmountChange_stored i value d t Hin Hid).
    now apply parseAmountInput_integer.
  - intros Hne. unfold onAmountChange, updateTransaction in Hin.
    cbn [transactions] in Hin. apply in_map_iff in Hin.
    destruct Hin as [t0 [E Hin]].
    destruct (String.eqb_spec (id t0) i) as [Ei|_]; subst t; [|exact Hin].
    cbn [set_transaction_field id] in Hne. contradiction.
Qed.

Lemma amount_input_stores_integer_witness :
  exists n, 0 <= n /\
    amount {| id := "1"; date := "01/10/2023";
              description := "Bán hàng tạp hóa lẻ"; amount := Num 3000000 |} = Num n.
Proof.
  refine (proj1 (amount_input_stores_integer SAMPLE_DATA "1" "3.000.000"
            {| id := "1"; date := "01/10/2023";
               description := "Bán hàng tạp hóa lẻ"; amount := Num 3000000 |} _ _) eq_refl).
  - vm_compute. lia.
  - left. reflexivity.
Defined.

(** X26.  The amount input is stable under re-rendering: for an input with
    at most 15 digits, what the field displays for the stored amount parses
    to that same amount. *)
Theorem amount_input_stable (value : string) :
  (String.length (cleanValue value) <= 15)%nat ->
  parseAmountInput (formatAmountInput (parseAmountInput value))
  = parseAmountInput value.
Proof.
  intros Hlen. destruct (parseAmountInput_safe_value value Hlen) as [Hb ->].
  now apply amount_roundtrip_safe.
Qed.

Lemma amount_input_stable_witness :
  parseAmountInput (formatAmountInput (parseAmountInput "0012x345"))
  = parseAmountInput "0012x345".
Proof.
  apply (amount_input_stable "0012x345"). vm_compute. lia.
Defined.
